(** * evm-health: the execution-chain readiness check

    A shallow embedding of [internal/execution] (the file that declares
    [isReady], [getSyncing], [SyncInfo], [Block] and [parseUintFromHex]) and
    of the poll loop's view of it, together with the properties the
    specification states about them.

    Conventions.
    - Go's [uint64] and [int64] are [Z] with the wrap-around written out
      ([wrap64u], [wrap64s]); a [time.Duration] is an [int64] count of
      nanoseconds.
    - Go strings are byte strings ([string] of the standard library).
    - A Go result pair [(v, err)] is kept as a pair where the value is used
      together with the error ([ParseUint]), and as a [result] elsewhere.
    - [log.Printf] calls are left out: logging is outside the specified core
      and none of them changes the control flow. *)

From Stdlib Require Import ZArith List String Ascii Bool Lia DecimalString.
Import ListNotations.
Open Scope string_scope.
Open Scope Z_scope.

Set Implicit Arguments.

(** ** Machine integers *)

Definition maxUint64 : Z := 2 ^ 64 - 1.
Definition maxInt64 : Z := 2 ^ 63 - 1.
Definition minInt64 : Z := - 2 ^ 63.

Definition wrap64u (x : Z) : Z := x mod 2 ^ 64.
Definition wrap64s (x : Z) : Z := (x + 2 ^ 63) mod 2 ^ 64 - 2 ^ 63.

Definition is_uint64 (x : Z) : Prop := 0 <= x <= maxUint64.
Definition is_int64 (x : Z) : Prop := minInt64 <= x <= maxInt64.

(** ** Results *)

Inductive result (E A : Type) : Type :=
| Ok (a : A)
| Err (e : E).
Arguments Ok {E A} a.
Arguments Err {E A} e.

(** ** Package [strings] *)

Definition byteOf (c : ascii) : Z := Z.of_N (N_of_ascii c).

(** [strings.TrimPrefix(s, prefix)]. *)
Fixpoint TrimPrefix_go (s0 s prefix : string) : string :=
  match prefix with
  | EmptyString => s
  | String p prefix' =>
      match s with
      | EmptyString => s0
      | String c s' => if Ascii.eqb c p then TrimPrefix_go s0 s' prefix' else s0
      end
  end.

Definition TrimPrefix (s prefix : string) : string := TrimPrefix_go s s prefix.

(** Membership of a byte in an ASCII cutset. *)
Fixpoint inCutset (c : ascii) (cutset : string) : bool :=
  match cutset with
  | EmptyString => false
  | String k cutset' => Ascii.eqb c k || inCutset c cutset'
  end.

(** [strings.TrimLeft(s, cutset)] for an ASCII cutset: every leading byte
    that occurs in the cutset is removed, however many there are. *)
Fixpoint TrimLeft (s cutset : string) : string :=
  match s with
  | EmptyString => EmptyString
  | String c s' => if inCutset c cutset then TrimLeft s' cutset else s
  end.

(** ** Package [strconv] *)

Inductive NumErrKind : Type :=
| ErrSyntax   (* strconv.ErrSyntax: invalid syntax *)
| ErrRange.   (* strconv.ErrRange: value out of range *)

(** [*strconv.NumError]. *)
Record NumError : Type := mkNumError {
  Func : string;
  Num : string;
  Err_ : NumErrKind
}.

Definition syntaxError (fn str : string) : NumError := mkNumError fn str ErrSyntax.
Definition rangeError (fn str : string) : NumError := mkNumError fn str ErrRange.

(** [lower(c)] of strconv: [c | ('x' - 'X')]. *)
Definition lower (c : Z) : Z := Z.lor c 32.

(** The digit value [ParseUint] gives a byte, before the comparison with the
    base; [None] is the [default] branch of its switch. *)
Definition digitVal (c : ascii) : option Z :=
  let b := byteOf c in
  if (48 <=? b) && (b <=? 57) then Some (b - 48)
  else if (97 <=? lower b) && (lower b <=? 122) then Some (lower b - 97 + 10)
  else None.

(** The digit loop of [strconv.ParseUint] for an explicit base in [2..36]
    (no prefix detection and no underscores, which belong to base 0). *)
Fixpoint parseUintLoop (s0 : string) (base cutoff maxVal : Z) (s : string) (n : Z)
  : Z * option NumError :=
  match s with
  | EmptyString => (n, None)
  | String c s' =>
      match digitVal c with
      | None => (0, Some (syntaxError "ParseUint" s0))
      | Some d =>
          if base <=? d then (0, Some (syntaxError "ParseUint" s0))
          else if cutoff <=? n then (maxVal, Some (rangeError "ParseUint" s0))
          else
            let n' := wrap64u (n * base) in
            let n1 := wrap64u (n' + d) in
            if (n1 <? n') || (maxVal <? n1)
            then (maxVal, Some (rangeError "ParseUint" s0))
            else parseUintLoop s0 base cutoff maxVal s' n1
      end
  end.

(** [strconv.ParseUint(s, base, bitSize)], [2 <= base <= 36], [bitSize > 0]. *)
Definition ParseUint (s : string) (base bitSize : Z) : Z * option NumError :=
  match s with
  | EmptyString => (0, Some (syntaxError "ParseUint" s))
  | _ =>
      let cutoff := maxUint64 / base + 1 in
      let maxVal := wrap64u (Z.shiftl 1 bitSize - 1) in
      parseUintLoop s base cutoff maxVal s 0
  end.

(** [strconv.ParseInt(s, base, bitSize)], same restrictions. *)
Definition ParseInt (s : string) (base bitSize : Z) : Z * option NumError :=
  match s with
  | EmptyString => (0, Some (syntaxError "ParseInt" s))
  | String c s' =>
      let neg := Ascii.eqb c "-" in
      let body := if Ascii.eqb c "+" then s' else if neg then s' else s in
      let '(un, err) := ParseUint body base bitSize in
      match err with
      | Some (mkNumError _ _ ErrSyntax) => (0, Some (syntaxError "ParseInt" s))
      | _ =>
          let cutoff := Z.shiftl 1 (bitSize - 1) in
          if negb neg && (cutoff <=? un) then (cutoff - 1, Some (rangeError "ParseInt" s))
          else if neg && (cutoff <? un) then (- cutoff, Some (rangeError "ParseInt" s))
          else
            let n := wrap64s un in
            ((if neg then wrap64s (- n) else n), None)
      end
  end.

(** ** [SyncInfo] and the best-effort hex parser *)

Record SyncInfo : Type := mkSyncInfo {
  CurrentBlockHex : string;
  HighestBlockHex : string
}.

(** [parseUintFromHex]: a malformed or overlong string gives 0. *)
Definition parseUintFromHex (hex : string) : Z :=
  if String.eqb hex EmptyString then 0
  else
    let trimmed := TrimPrefix hex "0x" in
    if String.eqb trimmed EmptyString then 0
    else
      match ParseUint trimmed 16 64 with
      | (_, Some _) => 0
      | (result, None) => result
      end.

Definition currentBlock (s : SyncInfo) : Z := parseUintFromHex (CurrentBlockHex s).
Definition highestBlock (s : SyncInfo) : Z := parseUintFromHex (HighestBlockHex s).

Definition distance (s : SyncInfo) : Z :=
  let h := highestBlock s in
  let c := currentBlock s in
  if h <? c then 0 else wrap64u (h - c).


(** ** Package [time]

    A [time.Time] without a monotonic reading is a count of seconds since
    January 1 of year 1 held in an [int64], and the nanoseconds within that
    second.  The clock readings of [time.Now] are given by the world. *)

Record Time : Type := mkTime {
  sec : Z;
  nsec : Z
}.

Definition Time_ok (t : Time) : Prop := is_int64 (sec t) /\ 0 <= nsec t < 1000000000.

Definition Nanosecond : Z := 1.
Definition Second : Z := 1000000000 * Nanosecond.
Definition minDuration : Z := minInt64.
Definition maxDuration : Z := maxInt64.

(** Seconds from year 1 to 1970: [(1969*365 + 1969/4 - 1969/100 + 1969/400) * 86400]. *)
Definition unixToInternal : Z := (1969 * 365 + 1969 / 4 - 1969 / 100 + 1969 / 400) * 86400.

(** [time.Unix(sec, 0)]: the addition is an [int64] addition. *)
Definition time_Unix (unixSec : Z) : Time :=
  mkTime (wrap64s (unixSec + unixToInternal)) 0.

(** The instant of a time value, in nanoseconds since year 1. *)
Definition instant (t : Time) : Z := sec t * 1000000000 + nsec t.

(** [t.Sub(u)]: the duration [t - u]; when it does not fit a [Duration] the
    maximum or the minimum duration is returned. *)
Definition time_Sub (t u : Time) : Z :=
  let d := instant t - instant u in
  if maxDuration <? d then maxDuration
  else if d <? minDuration then minDuration
  else d.

(** [d.Truncate(m)]: [d] rounded toward zero to a multiple of [m]. *)
Definition Truncate (d m : Z) : Z :=
  if m <=? 0 then d else d - Z.rem d m.

(** ** Package [encoding/json]

    A response body is a byte string; [json.Unmarshal] first checks that it
    is one well-formed JSON text and then stores its value into the target.
    The body is kept as what that check finds: not JSON, or the JSON value.
    Object members are kept in the order of the text, duplicates included:
    the decoder visits them in that order. *)

#[warnings="-register-all"] Inductive json : Type :=
| JNull
| JBool (b : bool)
| JNumber (literal : string)
| JString (s : string)
| JArray (items : list json)
| JObject (members : list (string * json)).

Inductive Body : Type :=
| NotJson
| Json (v : json).

Inductive JsonError : Type :=
| SyntaxError
| UnmarshalTypeError (Value : string).

(** The [Value] of an [UnmarshalTypeError]. *)
Definition jsonValueName (v : json) : string :=
  match v with
  | JNull => "null"
  | JBool _ => "bool"
  | JNumber _ => "number"
  | JString _ => "string"
  | JArray _ => "array"
  | JObject _ => "object"
  end.

(** Key folding of the decoder: ASCII letters are upper-cased, and the two
    non-ASCII runes that fold to an ASCII letter, U+212A (Kelvin sign, bytes
    E2 84 AA) and U+017F (long s, bytes C5 BF), become [K] and [S]. *)
Definition upperAscii (c : ascii) : ascii :=
  let b := byteOf c in
  if (97 <=? b) && (b <=? 122) then ascii_of_N (Z.to_N (b - 32)) else c.

Fixpoint foldName (s : string) : string :=
  match s with
  | EmptyString => EmptyString
  | String c1 s1 =>
      match s1 with
      | String c2 s2 =>
          if (byteOf c1 =? 197) && (byteOf c2 =? 191) then String "S" (foldName s2)
          else
            match s2 with
            | String c3 s3 =>
                if (byteOf c1 =? 226) && (byteOf c2 =? 132) && (byteOf c3 =? 170)
                then String "K" (foldName s3)
                else String (upperAscii c1) (foldName s1)
            | EmptyString => String (upperAscii c1) (foldName s1)
            end
      | EmptyString => String (upperAscii c1) EmptyString
      end
  end.

(** A member key selects the field tagged [name] when it is the name itself
    or equals it after folding. *)
Definition keyIs (name key : string) : bool :=
  String.eqb key name || String.eqb (foldName key) (foldName name).

(** Storing a JSON value into a Go [string] or [bool]; [null] leaves the
    target as it is. *)
Definition decodeString (v : json) (cur : string) : result JsonError string :=
  match v with
  | JNull => Ok cur
  | JString s => Ok s
  | _ => Err (UnmarshalTypeError (jsonValueName v))
  end.

Definition decodeBool (v : json) (cur : bool) : result JsonError bool :=
  match v with
  | JNull => Ok cur
  | JBool b => Ok b
  | _ => Err (UnmarshalTypeError (jsonValueName v))
  end.

(** Storing into a struct: the members are visited in order, a member whose
    key selects no field is skipped, a later duplicate stores over an
    earlier one.  The decoder goes on after a type error and reports the
    first one at the end; every caller here drops the target when the error
    is not nil, so the model stops at the first error. *)
Fixpoint decodeMembers (A : Type) (setField : string -> json -> A -> result JsonError A)
  (ms : list (string * json)) (cur : A) : result JsonError A :=
  match ms with
  | [] => Ok cur
  | (k, v) :: ms' =>
      match setField k v cur with
      | Ok cur' => decodeMembers setField ms' cur'
      | Err e => Err e
      end
  end.

Definition decodeStruct (A : Type) (setField : string -> json -> A -> result JsonError A)
  (v : json) (cur : A) : result JsonError A :=
  match v with
  | JNull => Ok cur
  | JObject ms => decodeMembers setField ms cur
  | _ => Err (UnmarshalTypeError (jsonValueName v))
  end.

Definition Unmarshal (A : Type) (setField : string -> json -> A -> result JsonError A)
  (zero : A) (body : Body) : result JsonError A :=
  match body with
  | NotJson => Err SyntaxError
  | Json v => decodeStruct setField v zero
  end.

(** ** The JSON-RPC result shapes *)

Record JsonResultSync : Type := mkJsonResultSync { ResultSync : SyncInfo }.
Record JsonResultBool : Type := mkJsonResultBool { ResultBool : bool }.

Record Block : Type := mkBlock {
  Timestamp : string;
  Number : string
}.

Record JsonResultBlock : Type := mkJsonResultBlock { ResultBlock : Block }.

Definition SyncInfo_setField (k : string) (v : json) (cur : SyncInfo)
  : result JsonError SyncInfo :=
  if keyIs "currentBlock" k then
    match decodeString v (CurrentBlockHex cur) with
    | Ok s => Ok (mkSyncInfo s (HighestBlockHex cur))
    | Err e => Err e
    end
  else if keyIs "highestBlock" k then
    match decodeString v (HighestBlockHex cur) with
    | Ok s => Ok (mkSyncInfo (CurrentBlockHex cur) s)
    | Err e => Err e
    end
  else Ok cur.

Definition Block_setField (k : string) (v : json) (cur : Block)
  : result JsonError Block :=
  if keyIs "timestamp" k then
    match decodeString v (Timestamp cur) with
    | Ok s => Ok (mkBlock s (Number cur))
    | Err e => Err e
    end
  else if keyIs "number" k then
    match decodeString v (Number cur) with
    | Ok s => Ok (mkBlock (Timestamp cur) s)
    | Err e => Err e
    end
  else Ok cur.

Definition JsonResultSync_setField (k : string) (v : json) (cur : JsonResultSync)
  : result JsonError JsonResultSync :=
  if keyIs "result" k then
    match decodeStruct SyncInfo_setField v (ResultSync cur) with
    | Ok r => Ok (mkJsonResultSync r)
    | Err e => Err e
    end
  else Ok cur.

Definition JsonResultBool_setField (k : string) (v : json) (cur : JsonResultBool)
  : result JsonError JsonResultBool :=
  if keyIs "result" k then
    match decodeBool v (ResultBool cur) with
    | Ok r => Ok (mkJsonResultBool r)
    | Err e => Err e
    end
  else Ok cur.

Definition JsonResultBlock_setField (k : string) (v : json) (cur : JsonResultBlock)
  : result JsonError JsonResultBlock :=
  if keyIs "result" k then
    match decodeStruct Block_setField v (ResultBlock cur) with
    | Ok r => Ok (mkJsonResultBlock r)
    | Err e => Err e
    end
  else Ok cur.

(** [json.Unmarshal(body, new(JsonResultSync))] and its two siblings. *)
Definition UnmarshalSync : Body -> result JsonError JsonResultSync :=
  Unmarshal JsonResultSync_setField (mkJsonResultSync (mkSyncInfo EmptyString EmptyString)).

Definition UnmarshalBool : Body -> result JsonError JsonResultBool :=
  Unmarshal JsonResultBool_setField (mkJsonResultBool false).

Definition UnmarshalBlock : Body -> result JsonError JsonResultBlock :=
  Unmarshal JsonResultBlock_setField (mkJsonResultBlock (mkBlock EmptyString EmptyString)).

(** ** Errors of a readiness check

    One constructor for each place where an error value is made. *)

Inductive error : Type :=
| ErrNewRequest                      (* http.NewRequest failed *)
| ErrDo                              (* client.Do failed: transport error or timeout *)
| ErrStatusCode (code : Z)           (* "incorrect response status code: %d" *)
| ErrReadAll                         (* io.ReadAll failed *)
| ErrUnmarshal (e : JsonError)       (* the error of json.Unmarshal *)
| ErrSyncingTrue                     (* "syncing is true, not expected" *)
| ErrSyncLag (dist tolerance : Z)    (* "syncing, distance %d blocks (tolerance: %d)" *)
| ErrBlockNumber (e : NumError)      (* "can not parse block number: %w" *)
| ErrBlockTimestamp (e : NumError)   (* "can not parse block timestamp: %w" *)
| ErrBlockTooOld (age : Z)           (* "latest block is too old: %s" *)
| ErrStalled (elapsed : Z).          (* the verdict of the block tracker *)

(** ** The block tracker *)

(** Modelled from the spec: the type [common.BlockTrack] and its methods
    [AddBlock] and [HealthCheck] are declared in [internal/common], which is
    not among the sources; the state and the two operations follow the
    specification of the liveness tracker ([observe] and [checkLiveness]).
    The stall threshold, which the specification leaves to the implementer
    as an explicit setting, is a field fixed at construction. *)
Record BlockTrack : Type := mkBlockTrack {
  lastObservedNumber : option Z;
  lastAdvanceTime : Time;
  stallThreshold : Z
}.

(** Modelled from the spec: [observe(number)] at clock reading [now]. *)
Definition observe (now : Time) (number : Z) (b : BlockTrack) : BlockTrack :=
  match lastObservedNumber b with
  | Some last =>
      if last <? number then mkBlockTrack (Some number) now (stallThreshold b) else b
  | None => mkBlockTrack (Some number) now (stallThreshold b)
  end.

(** Modelled from the spec: [checkLiveness()] at clock reading [now]. *)
Definition checkLiveness (now : Time) (b : BlockTrack) : option error :=
  let elapsed := time_Sub now (lastAdvanceTime b) in
  if stallThreshold b <? elapsed then Some (ErrStalled elapsed) else None.

(** ** The process and its environment *)

(** An outbound HTTP request as [request] builds it. *)
Record Request : Type := mkRequest {
  method : string;
  url : string;
  contentType : string;
  authorization : option string;
  clientTimeout : Z;
  payload : json
}.

(** What becomes of a request handed to [client.Do]. *)
Inductive HttpOutcome : Type :=
| DoFails
| Responds (StatusCode : Z) (body : option Body).   (* [None]: reading the body fails *)

(** The environment: which addresses [http.NewRequest] accepts, the answer
    to the [n]-th request the process sends, and the [n]-th reading of the
    wall clock. *)
Record World : Type := mkWorld {
  validURL : string -> bool;
  net : nat -> Request -> HttpOutcome;
  clock : nat -> Time
}.

(** The process: the package-level variable [blockTrack], the requests sent
    so far (latest first) and the number of clock readings taken. *)
Record Proc : Type := mkProc {
  blockTrack : BlockTrack;
  sent : list Request;
  ticks : nat
}.

(** Computations of the process: they read the world, change the process
    state and end with a value or an error.  The state reached when an error
    is returned is kept. *)
Definition M (A : Type) : Type := World -> Proc -> result error A * Proc.

Definition ret (A : Type) (a : A) : M A := fun _ p => (Ok a, p).

Definition fail (A : Type) (e : error) : M A := fun _ p => (Err e, p).
Arguments fail {A} e.

Definition bind (A B : Type) (m : M A) (k : A -> M B) : M B :=
  fun w p =>
    match m w p with
    | (Ok a, p') => k a w p'
    | (Err e, p') => (Err e, p')
    end.

Declare Scope go_scope.
Delimit Scope go_scope with go.
Notation "x <- m ;; k" := (bind m (fun x => k))
  (at level 61, m at next level, right associativity) : go_scope.
Notation "m ;; k" := (bind m (fun _ => k))
  (at level 61, right associativity) : go_scope.
Open Scope go_scope.

(** [time.Now()] *)
Definition time_Now : M Time :=
  fun w p => (Ok (clock w (ticks p)), mkProc (blockTrack p) (sent p) (S (ticks p))).

(** [time.Since(t)] for a [t] without monotonic reading. *)
Definition time_Since (t : Time) : M Z :=
  now <- time_Now ;; ret (time_Sub now t).

(** Modelled from the spec: [blockTrack.AddBlock(number)], the call of
    [isReady] on the package-level tracker, is [observe] at a reading of the
    clock. *)
Definition AddBlock (number : Z) : M unit :=
  now <- time_Now ;;
  fun _ p => (Ok tt, mkProc (observe now number (blockTrack p)) (sent p) (ticks p)).

(** Modelled from the spec: [blockTrack.HealthCheck()], the call of
    [isReady] on the package-level tracker, is [checkLiveness] at a reading
    of the clock. *)
Definition HealthCheck : M unit :=
  now <- time_Now ;;
  fun _ p =>
    match checkLiveness now (blockTrack p) with
    | Some e => (Err e, p)
    | None => (Ok tt, p)
    end.

(** ** Outbound requests *)

(** The two request payloads, kept as the JSON values their texts denote. *)
Definition payload_eth_syncing : json :=
  JObject [("jsonrpc", JString "2.0"); ("method", JString "eth_syncing");
           ("params", JArray []); ("id", JNumber "1")].

Definition payload_eth_getBlockByNumber : json :=
  JObject [("jsonrpc", JString "2.0"); ("method", JString "eth_getBlockByNumber");
           ("params", JArray [JString "latest"; JBool false]); ("id", JNumber "1")].

Definition buildRequest (addr token : string) (timeout : Z) (payload : json) : Request :=
  mkRequest "POST" addr "application/json"
    (if String.eqb token EmptyString then None else Some ("Bearer " ++ token)%string)
    (wrap64s (timeout * Second)) payload.

(** [request]: the body of a 200 response, or an error. *)
Definition request (addr token : string) (timeout : Z) (payload : json) : M Body :=
  fun w p =>
    if negb (validURL w addr) then (Err ErrNewRequest, p)
    else
      let req := buildRequest addr token timeout payload in
      let p' := mkProc (blockTrack p) (req :: sent p) (ticks p) in
      match net w (List.length (sent p)) req with
      | DoFails => (Err ErrDo, p')
      | Responds code body =>
          if negb (code =? 200) then (Err (ErrStatusCode code), p')
          else
            match body with
            | None => (Err ErrReadAll, p')
            | Some b => (Ok b, p')
            end
      end.

(** [getSyncing]: [Some] sync info, [None] for "not syncing", or an error. *)
Definition getSyncing (addr token : string) (timeout : Z) : M (option SyncInfo) :=
  body <- request addr token timeout payload_eth_syncing ;;
  match UnmarshalSync body with
  | Ok resultSync => ret (Some (ResultSync resultSync))
  | Err _ =>
      (* try parsing as bool *)
      match UnmarshalBool body with
      | Err err => fail (ErrUnmarshal err)
      | Ok resultBool =>
          if ResultBool resultBool then fail ErrSyncingTrue else ret None
      end
  end.

Definition getLatestBlock (addr token : string) (timeout : Z) : M Block :=
  body <- request addr token timeout payload_eth_getBlockByNumber ;;
  match UnmarshalBlock body with
  | Err err => fail (ErrUnmarshal err)
  | Ok result => ret (ResultBlock result)
  end.

(** ** [Block] *)

(** [(b *Block) time()] *)
Definition Block_time (b : Block) : result error Time :=
  let timeHex := TrimLeft (Timestamp b) "0x" in
  match ParseInt timeHex 16 64 with
  | (_, Some err) => Err (ErrBlockTimestamp err)
  | (unixtime, None) => Ok (time_Unix unixtime)
  end.

(** [(b *Block) number()] *)
Definition Block_number (b : Block) : result error Z :=
  let numHex := TrimLeft (Number b) "0x" in
  match ParseUint numHex 16 64 with
  | (_, Some err) => Err (ErrBlockNumber err)
  | (blockNumber, None) => Ok blockNumber
  end.

(** The comparison of [checkAge] once the clock is read. *)
Definition ageVerdict (age : Z) : option error :=
  if 300 * Second <? age then Some (ErrBlockTooOld (Truncate age Second)) else None.

(** [(b *Block) checkAge()] *)
Definition Block_checkAge (b : Block) : M unit :=
  match Block_time b with
  | Err err => fail err
  | Ok created =>
      age <- time_Since created ;;
      match ageVerdict age with
      | Some err => fail err
      | None => ret tt
      end
  end.

(** ** [isReady] *)

Definition liftResult (A : Type) (r : result error A) : M A :=
  match r with
  | Ok a => ret a
  | Err e => fail e
  end.

(** The sync-distance test of [isReady] (lines 138-148). *)
Definition checkSyncLag (syncInfo : option SyncInfo) (syncTolerance : Z) : M unit :=
  match syncInfo with
  | Some si =>
      let dist := distance si in
      if syncTolerance <? dist then fail (ErrSyncLag dist syncTolerance)
      else ret tt
  | None => ret tt
  end.

(** The rest of [isReady] from the latest-block request on (lines 150-170). *)
Definition checkLatestBlock (addr token : string) (timeout : Z) : M unit :=
  block <- getLatestBlock addr token timeout ;;
  blockNumber <- liftResult (Block_number block) ;;
  AddBlock blockNumber ;;
  (* make sure it is recent enough *)
  Block_checkAge block ;;
  (* wait for a new block *)
  HealthCheck.

Definition isReady (addr token : string) (timeout syncTolerance : Z) : M unit :=
  syncInfo <- getSyncing addr token timeout ;;
  checkSyncLag syncInfo syncTolerance ;;
  checkLatestBlock addr token timeout.

(** ** Hexadecimal strings, as the specification speaks of them *)

Definition isHexDigit (c : ascii) : bool :=
  let b := byteOf c in
  ((48 <=? b) && (b <=? 57)) || ((97 <=? b) && (b <=? 102)) || ((65 <=? b) && (b <=? 70)).

Definition hexDigitValue (c : ascii) : Z :=
  let b := byteOf c in
  if b <=? 57 then b - 48 else if b <=? 70 then b - 55 else b - 87.

Fixpoint allHex (s : string) : bool :=
  match s with
  | EmptyString => true
  | String c s' => isHexDigit c && allHex s'
  end.

(** The number a string of hex digits denotes, most significant first. *)
Fixpoint hexValueFrom (acc : Z) (s : string) : Z :=
  match s with
  | EmptyString => acc
  | String c s' => hexValueFrom (acc * 16 + hexDigitValue c) s'
  end.

(** A valid hex string: an optional [0x] and then at least one hex digit. *)
Definition validHexString (hex : string) : bool :=
  let digits := TrimPrefix hex "0x" in
  negb (String.eqb digits EmptyString) && allHex digits.

Definition hexNumber (hex : string) : Z := hexValueFrom 0 (TrimPrefix hex "0x").

(** A string made of the bytes [0] and [x] only. *)
Fixpoint onlyZeroX (s : string) : bool :=
  match s with
  | EmptyString => true
  | String c s' => inCutset c "0x" && onlyZeroX s'
  end.

(** ** Runs of the tracker and of [isReady] *)

(** Whether [observe] takes [number] as an advance. *)
Definition advances (b : BlockTrack) (number : Z) : Prop :=
  match lastObservedNumber b with
  | Some last => last < number
  | None => True
  end.

(** One poll as the tracker sees it: [observed] is fed to it at clock reading
    [observedAt], and its verdict is asked at the later reading [checkedAt]. *)
Record Poll : Type := mkPoll {
  observedAt : Time;
  observed : Z;
  checkedAt : Time
}.

(** The verdicts of a sequence of polls, and the tracker they leave. *)
Fixpoint pollVerdicts (b : BlockTrack) (polls : list Poll)
  : list (option error) * BlockTrack :=
  match polls with
  | [] => ([], b)
  | q :: polls' =>
      let b' := observe (observedAt q) (observed q) b in
      let (verdicts, final) := pollVerdicts b' polls' in
      (checkLiveness (checkedAt q) b' :: verdicts, final)
  end.

(** The observed numbers increase strictly, starting above [last]. *)
Fixpoint increasingFrom (last : option Z) (polls : list Poll) : Prop :=
  match polls with
  | [] => True
  | q :: polls' =>
      match last with Some l => l < observed q | None => True end
      /\ increasingFrom (Some (observed q)) polls'
  end.

(** A cycle of [isReady] that gets past the sync step and receives the
    latest block [b], reaching state [p2]. *)
Definition reachesLatestBlock (addr token : string) (timeout tol : Z)
  (w : World) (p : Proc) (b : Block) (p2 : Proc) : Prop :=
  exists syncInfo p1,
    getSyncing addr token timeout w p = (Ok syncInfo, p1) /\
    fst (checkSyncLag syncInfo tol w p1) = Ok tt /\
    getLatestBlock addr token timeout w p1 = (Ok b, p2).

(** The errors [request] makes. *)
Definition isTransportError (e : error) : bool :=
  match e with
  | ErrNewRequest | ErrDo | ErrStatusCode _ | ErrReadAll => true
  | _ => false
  end.

(** ** Scenarios

    Worlds and responses used to run the model on concrete inputs. *)

(** A world that answers the [n]-th request with the [n]-th reply and whose
    [n]-th clock reading is the [n]-th of [readings]. *)
Definition scriptedWorld (replies : list HttpOutcome) (readings : list Time) : World :=
  mkWorld (fun _ => true)
          (fun n _ => nth n replies DoFails)
          (fun n => nth n readings (mkTime 0 0)).

(** A JSON-RPC response with the given result. *)
Definition rpcResult (v : json) : Body :=
  Json (JObject [("jsonrpc", JString "2.0"); ("id", JNumber "1"); ("result", v)]).

Definition syncingAt (current highest : string) : Body :=
  rpcResult (JObject [("currentBlock", JString current); ("highestBlock", JString highest)]).

Definition latestBlock (number timestamp : string) : Body :=
  rpcResult (JObject [("number", JString number); ("timestamp", JString timestamp)]).

(** Scenario A: current block 90, highest block 100. *)
Definition scenarioA : Body := syncingAt "0x5a" "0x64".

(** A process that has observed nothing yet, with a stall threshold of one
    minute, started at Unix time 1700000000. *)
Definition startTime : Time := time_Unix 1700000000.
Definition freshProc : Proc := mkProc (mkBlockTrack None startTime (60 * Second)) [] 0.

(** The node address as [StartUpdater] passes it on, and the empty token of
    a node without a JWT secret. *)
Definition nodeAddr : string := "http://localhost:8545".
Definition noToken : string := EmptyString.

(** The clock reading [s] seconds and [ns] nanoseconds after [startTime]. *)
Definition after (s ns : Z) : Time := mkTime (sec startTime + s) ns.

(** Scenario B: the node is not syncing and its latest block, number 16, is
    stamped 400 seconds before [startTime]; the three clock readings of the
    cycle fall 0, 5 and 9 nanoseconds after [startTime]. *)
Definition scenarioB : World :=
  scriptedWorld [Responds 200 (Some (rpcResult (JBool false)));
                 Responds 200 (Some (latestBlock "0x10" "0x6553ef70"))]
                [after 0 0; after 0 5; after 0 9].

(** The same with a block stamped at [startTime]. *)
Definition scenarioFresh : World :=
  scriptedWorld [Responds 200 (Some (rpcResult (JBool false)));
                 Responds 200 (Some (latestBlock "0x10" "0x6553f100"))]
                [after 0 0; after 0 5; after 0 9].

(** The node is not syncing and answers the latest-block request with the
    given number and timestamp; the clock stands at [startTime]. *)
Definition nodeWithBlock (number timestamp : string) : World :=
  scriptedWorld [Responds 200 (Some (rpcResult (JBool false)));
                 Responds 200 (Some (latestBlock number timestamp))]
                [after 0 0; after 0 5; after 0 9].

(** Two targets polled by one process.  Both report "not syncing"; node A's
    latest block is number 100, stamped at [startTime], node B's is number
    50, stamped 100 seconds later.  The clock is read every 30 seconds.  A
    cycle sends the sync request first, so the requests with an even index
    are the sync requests. *)
Definition nodeA : string := "http://node-a:8545".
Definition nodeB : string := "http://node-b:8545".

Definition twoNodes : World :=
  mkWorld (fun _ => true)
          (fun n req =>
             if Nat.even n then Responds 200 (Some (rpcResult (JBool false)))
             else if String.eqb (url req) nodeA
                  then Responds 200 (Some (latestBlock "0x64" "0x6553f100"))
                  else Responds 200 (Some (latestBlock "0x32" "0x6553f164")))
          (fun n => after (30 * Z.of_nat n) 0).

(** The process after one cycle against node A. *)
Definition afterNodeA : Proc := snd (isReady nodeA noToken 5 0 twoNodes freshProc).

(** The same process if the cycle against node A had left the tracker alone. *)
Definition afterNodeA_ownTracker : Proc :=
  mkProc (blockTrack freshProc) (sent afterNodeA) (ticks afterNodeA).

(** What one tracker for each target would mean: the verdict of a cycle for
    one address does not depend on what a cycle for another address did to
    the tracker. *)
Definition trackerPerTarget : Prop :=
  forall addrA addrB token timeout tol w p,
    addrA <> addrB ->
    fst (isReady addrB token timeout tol w
           (snd (isReady addrA token timeout tol w p)))
    = fst (isReady addrB token timeout tol w
             (mkProc (blockTrack p)
                     (sent (snd (isReady addrA token timeout tol w p)))
                     (ticks (snd (isReady addrA token timeout tol w p))))).

(** The cut-off and the largest value of [ParseUint] for base 16 and 64 bits. *)
Definition cutoff16 : Z := 1152921504606846976.
Definition maxVal64 : Z := 18446744073709551615.

(** ** The poll loop and the start-up *)

(** Whether an object has a member whose key selects the field [name]. *)
Definition hasMember (name : string) (ms : list (string * json)) : bool :=
  existsb (fun kv => keyIs name (fst kv)) ms.

(** A JSON value that is neither [null], a boolean nor an object. *)
Definition isScalarOrArray (v : json) : bool :=
  match v with
  | JNumber _ | JString _ | JArray _ => true
  | _ => false
  end.

(** A JSON value that cannot be stored into a Go [string]. *)
Definition notNullOrString (v : json) : bool :=
  match v with
  | JNull | JString _ => false
  | _ => true
  end.

(** [strings.HasPrefix(s, prefix)]. *)
Fixpoint HasPrefix (s prefix : string) {struct prefix} : bool :=
  match prefix with
  | EmptyString => true
  | String p prefix' =>
      match s with
      | EmptyString => false
      | String c s' => Ascii.eqb c p && HasPrefix s' prefix'
      end
  end.

(** The verb [%d] of [fmt.Sprintf] on an [int]. *)
Definition formatInt (n : Z) : string := NilZero.string_of_int (Z.to_int n).




(** The arguments [StartUpdater] starts [update] with.  [loadJwt], not among
    the sources, is a parameter. *)
Record UpdateArgs : Type := mkUpdateArgs {
  updAddr : string;
  updTimeout : Z;
  updSecret : option string;
  updSyncTolerance : Z
}.

Definition StartUpdater (loadJwt : string -> option string)
  (addr : string) (timeout : Z) (jwtPath : string) (syncTolerance : Z) : UpdateArgs :=
  let secret := if String.eqb jwtPath EmptyString then None else loadJwt jwtPath in
  (* add http: prefix if necessary *)
  let addr := if negb (HasPrefix addr "http") then ("http://" ++ addr)%string else addr in
  mkUpdateArgs addr timeout secret syncTolerance.

(** The options [main] reads. *)
Record Options : Type := mkOptions {
  Chain : string;
  Port : Z;
  Addr : string;
  Timeout : Z;
  ExecutionJwt : string;
  ExecutionSyncTolerance : Z;
  BeaconCertificate : string
}.

(** The default port of [main] for the chain. *)
Definition main_nodePort (opts : Options) : Z :=
  if Port opts =? 0 then
    if String.eqb (Chain opts) "beacon" then 4000
    else if String.eqb (Chain opts) "avax" then 9650
    else 8545
  else Port opts.

(** What [main] starts. *)
Inductive Started : Type :=
| StartedExecution (nodeAddr : string) (args : UpdateArgs)   (* execution.StartUpdater *)
| StartedBeacon (nodeAddr : string)                          (* beacon.StartUpdater *)
| Fatal.                                                     (* log.Fatalf: unknown chain *)

(** The address [main] builds and the updater it starts (lines 53-85). *)
Definition main_start (loadJwt : string -> option string) (opts : Options) : Started :=
  let nodePort := main_nodePort opts in
  if String.eqb (Chain opts) "avax" then
    let nodeAddr := ("http://" ++ Addr opts ++ ":" ++ formatInt nodePort ++ "/ext/bc/C/rpc")%string in
    StartedExecution nodeAddr
      (StartUpdater loadJwt nodeAddr (Timeout opts) (ExecutionJwt opts)
                    (ExecutionSyncTolerance opts))
  else if String.eqb (Chain opts) "execution" then
    let nodeAddr := (Addr opts ++ ":" ++ formatInt nodePort)%string in
    StartedExecution nodeAddr
      (StartUpdater loadJwt nodeAddr (Timeout opts) (ExecutionJwt opts)
                    (ExecutionSyncTolerance opts))
  else if String.eqb (Chain opts) "beacon" then
    StartedBeacon (Addr opts ++ ":" ++ formatInt nodePort)%string
  else Fatal.

(** The options of a run with only [--chain] given: the defaults of the
    flags. *)
Definition defaultOptions (chain : string) : Options :=
  mkOptions chain 0 "localhost" 5 EmptyString 0 EmptyString.



(** ** Tactics *)

(** Case analysis on the 256 bytes. *)
Ltac each_byte c H :=
  destruct c as [[] [] [] [] [] [] [] []]; intros H; vm_compute in H; try discriminate H.

(** Unfolds the monadic operations of a computation of the process. *)
Ltac run_go :=
  repeat (cbv beta iota zeta delta
            [liftResult ret fail bind AddBlock Block_checkAge HealthCheck
             time_Since time_Now];
          cbn [blockTrack sent ticks fst snd]).

(** * Properties *)

Unset Implicit Arguments.

(** ** Digits and [ParseUint] *)

Lemma digitVal_hex (c : ascii) :
  isHexDigit c = true ->
  digitVal c = Some (hexDigitValue c) /\ 0 <= hexDigitValue c < 16.
Proof.
  each_byte c H; (split; [reflexivity | vm_compute; split; [discriminate | reflexivity]]).
Qed.

Lemma digitVal_not_hex (c : ascii) :
  isHexDigit c = false ->
  digitVal c = None \/ exists d, digitVal c = Some d /\ 16 <= d.
Proof.
  each_byte c H;
    first [ left; reflexivity
          | right; eexists; split; [reflexivity | vm_compute; discriminate] ].
Qed.

Lemma hexValueFrom_ge (s : string) : forall acc,
  allHex s = true -> 0 <= acc -> acc <= hexValueFrom acc s.
Proof.
  induction s as [|c s IH]; intros acc Hs Hacc; cbn [hexValueFrom].
  - lia.
  - cbn [allHex] in Hs. apply andb_prop in Hs as [Hc Hs].
    destruct (digitVal_hex c Hc) as [_ Hd].
    specialize (IH (acc * 16 + hexDigitValue c) Hs). lia.
Qed.

Lemma ParseUint_16_64 (c : ascii) (s : string) :
  ParseUint (String c s) 16 64
  = parseUintLoop (String c s) 16 cutoff16 maxVal64 (String c s) 0.
Proof. reflexivity. Qed.

Lemma wrap64u_small (x : Z) : 0 <= x <= maxVal64 -> wrap64u x = x.
Proof.
  unfold wrap64u, maxVal64. intros H.
  change (2 ^ 64) with 18446744073709551616. apply Z.mod_small. lia.
Qed.

(** A string of hex digits whose value fits 64 bits is read exactly. *)
Lemma parseUintLoop_value (s0 s : string) : forall n,
  allHex s = true -> 0 <= n -> hexValueFrom n s <= maxVal64 ->
  parseUintLoop s0 16 cutoff16 maxVal64 s n = (hexValueFrom n s, None).
Proof.
  induction s as [|c s IH]; intros n Hs Hn Hv; cbn [parseUintLoop hexValueFrom] in *.
  - reflexivity.
  - cbn [allHex] in Hs. apply andb_prop in Hs as [Hc Hs].
    destruct (digitVal_hex c Hc) as [-> Hd].
    pose proof (hexValueFrom_ge s (n * 16 + hexDigitValue c) Hs ltac:(lia)) as Hge.
    unfold cutoff16, maxVal64 in *.
    destruct (Z.leb_spec 16 (hexDigitValue c)); [lia|].
    destruct (Z.leb_spec 1152921504606846976 n); [lia|].
    rewrite (wrap64u_small (n * 16)) by (unfold maxVal64; lia).
    rewrite (wrap64u_small (n * 16 + hexDigitValue c)) by (unfold maxVal64; lia).
    destruct (Z.ltb_spec (n * 16 + hexDigitValue c) (n * 16)); [lia|].
    destruct (Z.ltb_spec 18446744073709551615 (n * 16 + hexDigitValue c)); [lia|].
    cbn [orb]. apply IH; [assumption | lia | assumption].
Qed.

(** A string of hex digits whose value does not fit is an error. *)
Lemma parseUintLoop_overflow (s0 s : string) : forall n,
  allHex s = true -> 0 <= n <= maxVal64 -> maxVal64 < hexValueFrom n s ->
  exists v e, parseUintLoop s0 16 cutoff16 maxVal64 s n = (v, Some e).
Proof.
  induction s as [|c s IH]; intros n Hs Hn Hv; cbn [parseUintLoop hexValueFrom] in *.
  - lia.
  - cbn [allHex] in Hs. apply andb_prop in Hs as [Hc Hs].
    destruct (digitVal_hex c Hc) as [-> Hd].
    unfold cutoff16, maxVal64 in *.
    destruct (Z.leb_spec 16 (hexDigitValue c)); [lia|].
    destruct (Z.leb_spec 1152921504606846976 n); [eauto|].
    rewrite (wrap64u_small (n * 16)) by (unfold maxVal64; lia).
    rewrite (wrap64u_small (n * 16 + hexDigitValue c)) by (unfold maxVal64; lia).
    destruct (Z.ltb_spec (n * 16 + hexDigitValue c) (n * 16)); [lia|].
    destruct (Z.ltb_spec 18446744073709551615 (n * 16 + hexDigitValue c)); [lia|].
    cbn [orb]. apply IH; [assumption | lia | assumption].
Qed.

(** A string with a byte that is no hex digit is an error. *)
Lemma parseUintLoop_not_hex (s0 s : string) : forall n,
  allHex s = false ->
  exists v e, parseUintLoop s0 16 cutoff16 maxVal64 s n = (v, Some e).
Proof.
  induction s as [|c s IH]; intros n Hs; cbn [parseUintLoop allHex] in *.
  - discriminate.
  - destruct (isHexDigit c) eqn:Hc.
    + destruct (digitVal_hex c Hc) as [-> Hd]. cbn [andb] in Hs.
      destruct (16 <=? hexDigitValue c); [eauto|].
      destruct (cutoff16 <=? n); [eauto|].
      match goal with |- context [if ?b then _ else _] => destruct b end; [eauto|].
      apply IH; assumption.
    + destruct (digitVal_not_hex c Hc) as [-> | (d & -> & Hd)]; [eauto|].
      destruct (Z.leb_spec 16 d); [eauto | lia].
Qed.

(** The loop never leaves the 64-bit range. *)
Lemma parseUintLoop_range (s0 s : string) : forall n v,
  0 <= n <= maxVal64 ->
  parseUintLoop s0 16 cutoff16 maxVal64 s n = (v, None) -> 0 <= v <= maxVal64.
Proof.
  induction s as [|c s IH]; intros n v Hn H; cbn [parseUintLoop] in H.
  - injection H as <-. assumption.
  - destruct (digitVal c) as [d|]; [|discriminate].
    destruct (16 <=? d); [discriminate|].
    destruct (cutoff16 <=? n); [discriminate|].
    match type of H with context [if ?b then _ else _] => destruct b end; [discriminate|].
    apply IH in H; [assumption|].
    unfold wrap64u, maxVal64. change (2 ^ 64) with 18446744073709551616.
    pose proof (Z.mod_pos_bound (wrap64u (n * 16) + d) 18446744073709551616 ltac:(lia)).
    unfold wrap64u in *. change (2 ^ 64) with 18446744073709551616 in *. lia.
Qed.

(** ** The best-effort parser *)

Lemma String_eqb_empty (s : string) :
  String.eqb s EmptyString = match s with EmptyString => true | _ => false end.
Proof. destruct s; reflexivity. Qed.

(** On a string with something left after the prefix, [parseUintFromHex] is
    [ParseUint] with its errors turned into 0. *)
Lemma parseUintFromHex_trimmed (hex : string) (c : ascii) (ds : string) :
  TrimPrefix hex "0x" = String c ds ->
  parseUintFromHex hex
  = match parseUintLoop (String c ds) 16 cutoff16 maxVal64 (String c ds) 0 with
    | (_, Some _) => 0
    | (v, None) => v
    end.
Proof.
  intros H. unfold parseUintFromHex.
  destruct hex as [|h hex']; [discriminate H|].
  rewrite H, !String_eqb_empty, ParseUint_16_64. reflexivity.
Qed.

Lemma parseUintFromHex_range (hex : string) :
  0 <= parseUintFromHex hex <= maxUint64.
Proof.
  assert (Hz : 0 <= 0 <= maxUint64) by (unfold maxUint64; lia).
  destruct (TrimPrefix hex "0x") as [|c ds] eqn:Ht.
  - unfold parseUintFromHex. rewrite Ht.
    destruct (String.eqb hex EmptyString); exact Hz.
  - rewrite (parseUintFromHex_trimmed hex c ds Ht).
    destruct (parseUintLoop _ _ _ _ _ _) as [v [e|]] eqn:Hl; [exact Hz|].
    apply parseUintLoop_range in Hl; [exact Hl | unfold maxVal64; lia].
Qed.

(** C4: whenever the decoded [highestBlock] is below the decoded
    [currentBlock], [distance] is 0; otherwise it is exactly
    [highestBlock - currentBlock]; in both cases the result is a [uint64]
    value, so the subtraction never wraps. *)
Theorem distance_clamped (s : SyncInfo) :
  (highestBlock s < currentBlock s -> distance s = 0) /\
  (currentBlock s <= highestBlock s -> distance s = highestBlock s - currentBlock s) /\
  0 <= distance s <= maxUint64.
Proof.
  pose proof (parseUintFromHex_range (HighestBlockHex s)) as Hh.
  pose proof (parseUintFromHex_range (CurrentBlockHex s)) as Hc.
  fold (highestBlock s) in Hh. fold (currentBlock s) in Hc.
  unfold distance, maxUint64 in *.
  assert (Hw : currentBlock s <= highestBlock s ->
               wrap64u (highestBlock s - currentBlock s) = highestBlock s - currentBlock s).
  { intros Hle. apply wrap64u_small. unfold maxVal64. lia. }
  destruct (Z.ltb_spec (highestBlock s) (currentBlock s)) as [Hlt | Hge].
  - repeat split; intros; lia.
  - rewrite (Hw Hge). repeat split; intros; lia.
Qed.

Lemma distance_clamped_witness :
  distance (mkSyncInfo "0x64" "0x5a") = 0 /\
  distance (mkSyncInfo "0x5a" "0x64") = 10 /\
  distance (mkSyncInfo EmptyString EmptyString) = 0 /\
  distance (mkSyncInfo "0x5a" "zz") = 0.
Proof.
  split; [| split; [| split]].
  - apply (proj1 (distance_clamped (mkSyncInfo "0x64" "0x5a"))). vm_compute. reflexivity.
  - apply (proj1 (proj2 (distance_clamped (mkSyncInfo "0x5a" "0x64")))).
    vm_compute. discriminate.
  - apply (proj1 (proj2 (distance_clamped (mkSyncInfo EmptyString EmptyString)))).
    vm_compute. discriminate.
  - apply (proj1 (distance_clamped (mkSyncInfo "0x5a" "zz"))). vm_compute. reflexivity.
Defined.

(** C5, as amended: [parseUintFromHex] gives a [uint64] value on every
    string; the empty string, the bare prefix [0x] and every string that has
    a byte other than a hex digit after the optional prefix give 0; a valid
    hex string gives the number it denotes when that number fits 64 bits,
    and 0 when it does not. *)
Theorem parseUintFromHex_spec :
  (forall hex, 0 <= parseUintFromHex hex <= maxUint64) /\
  parseUintFromHex EmptyString = 0 /\
  parseUintFromHex "0x" = 0 /\
  (forall hex, allHex (TrimPrefix hex "0x") = false -> parseUintFromHex hex = 0) /\
  (forall hex, validHexString hex = true -> hexNumber hex <= maxUint64 ->
     parseUintFromHex hex = hexNumber hex) /\
  (forall hex, validHexString hex = true -> maxUint64 < hexNumber hex ->
     parseUintFromHex hex = 0) /\
  parseUintFromHex "0x1a" = 26.
Proof.
  split; [exact parseUintFromHex_range|].
  split; [reflexivity|]. split; [reflexivity|].
  split; [| split; [| split; [| reflexivity]]].
  - intros hex Hbad.
    destruct (TrimPrefix hex "0x") as [|c ds] eqn:Ht; [discriminate Hbad|].
    rewrite (parseUintFromHex_trimmed hex c ds Ht).
    destruct (parseUintLoop_not_hex (String c ds) (String c ds) 0 Hbad) as (v & e & ->).
    reflexivity.
  - intros hex Hvalid Hfit. unfold validHexString, hexNumber in *.
    destruct (TrimPrefix hex "0x") as [|c ds] eqn:Ht; [discriminate Hvalid|].
    rewrite String_eqb_empty in Hvalid. cbn [negb andb] in Hvalid.
    rewrite (parseUintFromHex_trimmed hex c ds Ht).
    rewrite parseUintLoop_value; [reflexivity | assumption | lia | exact Hfit].
  - intros hex Hvalid Hbig. unfold validHexString, hexNumber in *.
    destruct (TrimPrefix hex "0x") as [|c ds] eqn:Ht; [discriminate Hvalid|].
    rewrite String_eqb_empty in Hvalid. cbn [negb andb] in Hvalid.
    rewrite (parseUintFromHex_trimmed hex c ds Ht).
    destruct (parseUintLoop_overflow (String c ds) (String c ds) 0 Hvalid
                ltac:(unfold maxVal64; lia) Hbig) as (v & e & ->).
    reflexivity.
Qed.

Lemma parseUintFromHex_spec_witness :
  parseUintFromHex "0xzz" = 0 /\
  parseUintFromHex "0xffffffffffffffff" = 18446744073709551615 /\
  parseUintFromHex "1a" = 26 /\
  parseUintFromHex "0x10000000000000000" = 0.
Proof.
  destruct parseUintFromHex_spec as (_ & _ & _ & Hbad & Hfit & Hbig & _).
  split; [| split; [| split]].
  - apply Hbad. reflexivity.
  - apply (Hfit "0xffffffffffffffff"); [reflexivity | vm_compute; discriminate].
  - apply (Hfit "1a"); [reflexivity | vm_compute; discriminate].
  - apply Hbig; [reflexivity | vm_compute; reflexivity].
Defined.

(** C5 as first stated fails: a valid hex string of seventeen digits denotes
    2^64, and [parseUintFromHex] gives 0 on it. *)
Lemma parseUintFromHex_overflow_counterexample :
  validHexString "0x10000000000000000" = true /\
  hexNumber "0x10000000000000000" = 2 ^ 64 /\
  parseUintFromHex "0x10000000000000000" <> hexNumber "0x10000000000000000".
Proof.
  split; [reflexivity|]. split; [reflexivity|].
  vm_compute. discriminate.
Qed.

(** ** Running the requests *)

Lemma request_frame addr token timeout payload w p r p1 :
  request addr token timeout payload w p = (r, p1) ->
  blockTrack p1 = blockTrack p /\ ticks p1 = ticks p /\
  (sent p1 = sent p \/ sent p1 = buildRequest addr token timeout payload :: sent p) /\
  (forall body, r = Ok body -> sent p1 = buildRequest addr token timeout payload :: sent p).
Proof.
  unfold request. intros H.
  destruct (validURL w addr); cbn [negb] in H.
  - destruct (net w _ _) as [|code [body|]].
    + injection H as <- <-. cbn. repeat split; auto; discriminate.
    + destruct (code =? 200); cbn [negb] in H; injection H as <- <-; cbn;
        repeat split; auto; discriminate.
    + destruct (code =? 200); cbn [negb] in H; injection H as <- <-; cbn;
        repeat split; auto; discriminate.
  - injection H as <- <-. repeat split; auto; discriminate.
Qed.

Lemma getSyncing_run addr token timeout w p :
  getSyncing addr token timeout w p
  = match request addr token timeout payload_eth_syncing w p with
    | (Ok body, p1) =>
        (match UnmarshalSync body with
         | Ok resultSync => Ok (Some (ResultSync resultSync))
         | Err _ =>
             match UnmarshalBool body with
             | Err err => Err (ErrUnmarshal err)
             | Ok resultBool =>
                 if ResultBool resultBool then Err ErrSyncingTrue else Ok None
             end
         end, p1)
    | (Err e, p1) => (Err e, p1)
    end.
Proof.
  unfold getSyncing, bind.
  destruct (request _ _ _ _ w p) as [[body|e] p1]; [|reflexivity].
  destruct (UnmarshalSync body); [reflexivity|].
  destruct (UnmarshalBool body) as [[[]]|]; reflexivity.
Qed.

Lemma getLatestBlock_run addr token timeout w p :
  getLatestBlock addr token timeout w p
  = match request addr token timeout payload_eth_getBlockByNumber w p with
    | (Ok body, p1) =>
        (match UnmarshalBlock body with
         | Ok result => Ok (ResultBlock result)
         | Err err => Err (ErrUnmarshal err)
         end, p1)
    | (Err e, p1) => (Err e, p1)
    end.
Proof.
  unfold getLatestBlock, bind.
  destruct (request _ _ _ _ w p) as [[body|e] p1]; [|reflexivity].
  destruct (UnmarshalBlock body); reflexivity.
Qed.

Lemma getSyncing_frame addr token timeout w p r p1 :
  getSyncing addr token timeout w p = (r, p1) ->
  blockTrack p1 = blockTrack p /\ ticks p1 = ticks p /\
  (sent p1 = sent p \/
   sent p1 = buildRequest addr token timeout payload_eth_syncing :: sent p).
Proof.
  rewrite getSyncing_run.
  destruct (request _ _ _ _ w p) as [[body|e] p'] eqn:Hreq; intros H;
    injection H as _ <-;
    destruct (request_frame _ _ _ _ _ _ _ _ Hreq) as (Hb & Ht & Hs & _); auto.
Qed.

Lemma getLatestBlock_frame addr token timeout w p b p1 :
  getLatestBlock addr token timeout w p = (Ok b, p1) ->
  blockTrack p1 = blockTrack p /\ ticks p1 = ticks p /\
  sent p1 = buildRequest addr token timeout payload_eth_getBlockByNumber :: sent p.
Proof.
  rewrite getLatestBlock_run.
  destruct (request _ _ _ _ w p) as [[body|e] p'] eqn:Hreq; intros H;
    [|discriminate H].
  injection H as _ <-.
  destruct (request_frame _ _ _ _ _ _ _ _ Hreq) as (Hb & Ht & _ & Hs).
  repeat split; auto. eapply Hs. reflexivity.
Qed.

Lemma checkSyncLag_state syncInfo tol w p :
  snd (checkSyncLag syncInfo tol w p) = p.
Proof.
  unfold checkSyncLag. destruct syncInfo as [si|]; [|reflexivity].
  cbv zeta. destruct (tol <? distance si); reflexivity.
Qed.

(** The sync step of [isReady] as a whole. *)
Lemma isReady_run addr token timeout tol w p :
  isReady addr token timeout tol w p
  = match getSyncing addr token timeout w p with
    | (Ok syncInfo, p1) =>
        match fst (checkSyncLag syncInfo tol w p1) with
        | Ok _ => checkLatestBlock addr token timeout w p1
        | Err e => (Err e, p1)
        end
    | (Err e, p1) => (Err e, p1)
    end.
Proof.
  unfold isReady, bind.
  destruct (getSyncing _ _ _ w p) as [[syncInfo|e] p1]; [|reflexivity].
  pose proof (checkSyncLag_state syncInfo tol w p1) as Hs.
  destruct (checkSyncLag syncInfo tol w p1) as [[u|e] p1']; cbn in Hs |- *;
    subst p1'; reflexivity.
Qed.

(** The part of [isReady] after a latest block with a readable number. *)
Lemma checkLatestBlock_run addr token timeout w p1 b p2 n :
  getLatestBlock addr token timeout w p1 = (Ok b, p2) ->
  Block_number b = Ok n ->
  let tr := observe (clock w (ticks p2)) n (blockTrack p2) in
  checkLatestBlock addr token timeout w p1
  = match Block_time b with
    | Err e => (Err e, mkProc tr (sent p2) (S (ticks p2)))
    | Ok created =>
        match ageVerdict (time_Sub (clock w (S (ticks p2))) created) with
        | Some e => (Err e, mkProc tr (sent p2) (S (S (ticks p2))))
        | None =>
            match checkLiveness (clock w (S (S (ticks p2)))) tr with
            | Some e => (Err e, mkProc tr (sent p2) (S (S (S (ticks p2)))))
            | None => (Ok tt, mkProc tr (sent p2) (S (S (S (ticks p2)))))
            end
        end
    end.
Proof.
  intros Hb Hn tr. unfold checkLatestBlock, bind. rewrite Hb, Hn.
  run_go. fold tr.
  destruct (Block_time b) as [created|e]; [|reflexivity].
  run_go.
  destruct (ageVerdict _) as [e|]; [reflexivity|].
  run_go.
  destruct (checkLiveness _ tr) as [e|]; reflexivity.
Qed.

(** ** The sync step *)

(** A body that decodes both as the structured form and as the boolean form
    has only [null] results: both decoders leave their targets untouched. *)
Lemma decodeMembers_both (ms : list (string * json)) : forall cs cb r rb,
  decodeMembers JsonResultSync_setField ms cs = Ok r ->
  decodeMembers JsonResultBool_setField ms cb = Ok rb ->
  r = cs /\ rb = cb.
Proof.
  induction ms as [|[k v] ms IH]; intros cs cb r rb Hs Hb; cbn [decodeMembers] in *.
  - injection Hs as <-. injection Hb as <-. auto.
  - unfold JsonResultSync_setField, JsonResultBool_setField in Hs, Hb.
    destruct (keyIs "result" k).
    + destruct v; cbn in Hs, Hb; try discriminate.
      destruct cs as [si], cb as [bo]. cbn in Hs, Hb. eapply IH; eassumption.
    + eapply IH; eassumption.
Qed.

Lemma Unmarshal_both (body : Body) r rb :
  UnmarshalSync body = Ok r -> UnmarshalBool body = Ok rb ->
  r = mkJsonResultSync (mkSyncInfo EmptyString EmptyString) /\ rb = mkJsonResultBool false.
Proof.
  unfold UnmarshalSync, UnmarshalBool, Unmarshal.
  destruct body as [|v]; [discriminate|].
  destruct v; cbn [decodeStruct]; try discriminate.
  - intros Hs Hb. injection Hs as <-. injection Hb as <-. auto.
  - apply decodeMembers_both.
Qed.

(** C1: when the sync response decodes as the structured form, [isReady]
    takes [distance] of the decoded [SyncInfo]; a distance above
    [syncTolerance] ends the check with the sync-lag error that carries the
    distance and the tolerance; a distance within the tolerance does not fail
    here, and the check goes on with the latest-block part.  Scenario A
    (current 0x5a, highest 0x64, tolerance 5) fails with distance 10 and
    tolerance 5. *)
Theorem isReady_sync_lag :
  (forall addr token timeout tol w p body p1 r,
     request addr token timeout payload_eth_syncing w p = (Ok body, p1) ->
     UnmarshalSync body = Ok r ->
     (tol < distance (ResultSync r) ->
      isReady addr token timeout tol w p
      = (Err (ErrSyncLag (distance (ResultSync r)) tol), p1)) /\
     (distance (ResultSync r) <= tol ->
      isReady addr token timeout tol w p = checkLatestBlock addr token timeout w p1)) /\
  (forall addr token timeout w p p1,
     request addr token timeout payload_eth_syncing w p = (Ok scenarioA, p1) ->
     isReady addr token timeout 5 w p = (Err (ErrSyncLag 10 5), p1)).
Proof.
  assert (H1 : forall addr token timeout tol w p body p1 r,
     request addr token timeout payload_eth_syncing w p = (Ok body, p1) ->
     UnmarshalSync body = Ok r ->
     (tol < distance (ResultSync r) ->
      isReady addr token timeout tol w p
      = (Err (ErrSyncLag (distance (ResultSync r)) tol), p1)) /\
     (distance (ResultSync r) <= tol ->
      isReady addr token timeout tol w p = checkLatestBlock addr token timeout w p1)).
  { intros addr token timeout tol w p body p1 r Hreq Hdec.
    rewrite isReady_run, getSyncing_run, Hreq, Hdec. unfold checkSyncLag.
    destruct (Z.ltb_spec tol (distance (ResultSync r))); split; intros; try lia;
      reflexivity. }
  split; [exact H1|].
  intros addr token timeout w p p1 Hreq.
  apply (H1 addr token timeout 5 w p scenarioA p1
            (mkJsonResultSync (mkSyncInfo "0x5a" "0x64")) Hreq); reflexivity.
Qed.

Lemma isReady_sync_lag_witness :
  isReady nodeAddr noToken 5 5
    (scriptedWorld [Responds 200 (Some scenarioA)] []) freshProc
  = (Err (ErrSyncLag 10 5),
     mkProc (blockTrack freshProc)
            [buildRequest nodeAddr noToken 5 payload_eth_syncing] 0)
  /\ fst (isReady nodeAddr noToken 5 20
       (scriptedWorld [Responds 200 (Some scenarioA);
                       Responds 200 (Some (latestBlock "0x5a" "0x6553f100"))]
                      [after 1 0; after 1 5; after 1 9]) freshProc)
     = Ok tt.
Proof.
  split.
  - apply (proj2 isReady_sync_lag). reflexivity.
  - pose proof (proj1 isReady_sync_lag nodeAddr noToken 5 20
       (scriptedWorld [Responds 200 (Some scenarioA);
                       Responds 200 (Some (latestBlock "0x5a" "0x6553f100"))]
                      [after 1 0; after 1 5; after 1 9]) freshProc
       scenarioA _ (mkJsonResultSync (mkSyncInfo "0x5a" "0x64"))
       eq_refl eq_refl) as [_ Hgo].
    rewrite Hgo.
    + reflexivity.
    + vm_compute. discriminate.
Defined.

(** C2: a sync response that decodes as the boolean [true] makes
    [getSyncing], and with it [isReady], fail with the "syncing is true"
    error (such a body never decodes as the structured form); one that
    decodes as the boolean [false] is "not syncing": [getSyncing] returns no
    [SyncInfo] and no error when the boolean form is reached, and [isReady]
    goes on with the latest-block part.  The structured form is tried first:
    when it decodes, its [SyncInfo] is returned whatever the boolean form
    would give, and the boolean form decides only after it failed. *)
Theorem getSyncing_boolean :
  (forall body, UnmarshalBool body = Ok (mkJsonResultBool true) ->
     exists e, UnmarshalSync body = Err e) /\
  (forall addr token timeout tol w p body p1,
     request addr token timeout payload_eth_syncing w p = (Ok body, p1) ->
     UnmarshalBool body = Ok (mkJsonResultBool true) ->
     getSyncing addr token timeout w p = (Err ErrSyncingTrue, p1) /\
     isReady addr token timeout tol w p = (Err ErrSyncingTrue, p1)) /\
  (forall addr token timeout w p body p1 e,
     request addr token timeout payload_eth_syncing w p = (Ok body, p1) ->
     UnmarshalSync body = Err e ->
     UnmarshalBool body = Ok (mkJsonResultBool false) ->
     getSyncing addr token timeout w p = (Ok None, p1)) /\
  (forall addr token timeout tol w p body p1,
     request addr token timeout payload_eth_syncing w p = (Ok body, p1) ->
     UnmarshalBool body = Ok (mkJsonResultBool false) ->
     0 <= tol ->
     isReady addr token timeout tol w p = checkLatestBlock addr token timeout w p1) /\
  (forall addr token timeout w p body p1 r,
     request addr token timeout payload_eth_syncing w p = (Ok body, p1) ->
     UnmarshalSync body = Ok r ->
     getSyncing addr token timeout w p = (Ok (Some (ResultSync r)), p1)) /\
  (forall addr token timeout w p body p1 e e',
     request addr token timeout payload_eth_syncing w p = (Ok body, p1) ->
     UnmarshalSync body = Err e ->
     UnmarshalBool body = Err e' ->
     getSyncing addr token timeout w p = (Err (ErrUnmarshal e'), p1)).
Proof.
  assert (Hexcl : forall body, UnmarshalBool body = Ok (mkJsonResultBool true) ->
                    exists e, UnmarshalSync body = Err e).
  { intros body Hb. destruct (UnmarshalSync body) as [r|e] eqn:Hs; [|eauto].
    destruct (Unmarshal_both body r _ Hs Hb) as [_ Habs]. discriminate Habs. }
  split; [exact Hexcl|].
  split; [| split; [| split; [| split]]].
  - intros addr token timeout tol w p body p1 Hreq Hb.
    destruct (Hexcl body Hb) as [e Hs].
    rewrite isReady_run, getSyncing_run, Hreq, Hs, Hb. split; reflexivity.
  - intros addr token timeout w p body p1 e Hreq Hs Hb.
    rewrite getSyncing_run, Hreq, Hs, Hb. reflexivity.
  - intros addr token timeout tol w p body p1 Hreq Hb Htol.
    rewrite isReady_run, getSyncing_run, Hreq.
    destruct (UnmarshalSync body) as [r|e] eqn:Hs.
    + destruct (Unmarshal_both body r _ Hs Hb) as [-> _].
      unfold checkSyncLag. cbn [ResultSync].
      change (distance (mkSyncInfo EmptyString EmptyString)) with 0.
      destruct (Z.ltb_spec tol 0); [lia | reflexivity].
    + rewrite Hb. reflexivity.
  - intros addr token timeout w p body p1 r Hreq Hs.
    rewrite getSyncing_run, Hreq, Hs. reflexivity.
  - intros addr token timeout w p body p1 e e' Hreq Hs Hb.
    rewrite getSyncing_run, Hreq, Hs, Hb. reflexivity.
Qed.

Lemma getSyncing_boolean_witness :
  isReady nodeAddr noToken 5 0
    (scriptedWorld [Responds 200 (Some (rpcResult (JBool true)))] []) freshProc
  = (Err ErrSyncingTrue,
     mkProc (blockTrack freshProc)
            [buildRequest nodeAddr noToken 5 payload_eth_syncing] 0)
  /\ getSyncing nodeAddr noToken 5
       (scriptedWorld [Responds 200 (Some (rpcResult (JBool false)))] []) freshProc
     = (Ok None,
        mkProc (blockTrack freshProc)
               [buildRequest nodeAddr noToken 5 payload_eth_syncing] 0)
  /\ fst (isReady nodeAddr noToken 5 0
       (scriptedWorld [Responds 200 (Some (rpcResult (JBool false)));
                       Responds 200 (Some (latestBlock "0x5a" "0x6553f100"))]
                      [after 1 0; after 1 5; after 1 9]) freshProc)
     = Ok tt
  /\ (exists e, UnmarshalSync (rpcResult (JBool true)) = Err e)
  /\ fst (getSyncing nodeAddr noToken 5
       (scriptedWorld [Responds 200 (Some scenarioA)] []) freshProc)
     = Ok (Some (mkSyncInfo "0x5a" "0x64"))
  /\ fst (getSyncing nodeAddr noToken 5
       (scriptedWorld [Responds 200 (Some (rpcResult (JNumber "1")))] []) freshProc)
     = Err (ErrUnmarshal (UnmarshalTypeError "number")).
Proof.
  destruct getSyncing_boolean as (Hexcl & Htrue & Hfalse & Hgo & Hfirst & Hboth).
  split; [| split; [| split; [| split; [| split]]]].
  - refine (proj2 (Htrue _ _ _ _ _ _ _ _ _ _)); reflexivity.
  - eapply Hfalse; reflexivity.
  - erewrite Hgo; [| reflexivity | reflexivity | lia]. reflexivity.
  - apply Hexcl. reflexivity.
  - erewrite Hfirst; [| reflexivity | reflexivity]. reflexivity.
  - erewrite Hboth; [| reflexivity | reflexivity | reflexivity]. reflexivity.
Defined.

(** ** The block tracker *)

Lemma observe_advance now n b :
  advances b n -> observe now n b = mkBlockTrack (Some n) now (stallThreshold b).
Proof.
  unfold advances, observe. destruct (lastObservedNumber b) as [last|]; [|reflexivity].
  intros H. destruct (Z.ltb_spec last n); [reflexivity | lia].
Qed.

Lemma observe_same now n b :
  ~ advances b n -> observe now n b = b.
Proof.
  unfold advances, observe. destruct (lastObservedNumber b) as [last|].
  - intros H. destruct (Z.ltb_spec last n); [contradiction | reflexivity].
  - intros H. exfalso. apply H. exact I.
Qed.

Lemma checkLiveness_stalled now b e :
  checkLiveness now b = Some e <->
  stallThreshold b < time_Sub now (lastAdvanceTime b) /\
  e = ErrStalled (time_Sub now (lastAdvanceTime b)).
Proof.
  unfold checkLiveness. cbv zeta.
  destruct (Z.ltb_spec (stallThreshold b) (time_Sub now (lastAdvanceTime b))).
  - split.
    + intros H'. injection H' as <-. auto.
    + intros [_ ->]. reflexivity.
  - split; [discriminate | intros [H' _]; lia].
Qed.

Lemma checkLiveness_live now b :
  checkLiveness now b = None <->
  time_Sub now (lastAdvanceTime b) <= stallThreshold b.
Proof.
  unfold checkLiveness. cbv zeta.
  destruct (Z.ltb_spec (stallThreshold b) (time_Sub now (lastAdvanceTime b))).
  - split; [discriminate | lia].
  - split; [auto | reflexivity].
Qed.

(** Strictly increasing numbers: every observation restarts the stall clock,
    so a verdict only measures the time since the poll's own observation. *)
Lemma pollVerdicts_increasing (polls : list Poll) : forall b,
  increasingFrom (lastObservedNumber b) polls ->
  (forall q, In q polls ->
     time_Sub (checkedAt q) (observedAt q) <= stallThreshold b) ->
  forall v, In v (fst (pollVerdicts b polls)) -> v = None.
Proof.
  induction polls as [|q polls IH]; intros b Hinc Hgap v Hv; cbn [pollVerdicts] in Hv.
  - destruct Hv.
  - destruct Hinc as [Hq Hinc].
    assert (Hobs : observe (observedAt q) (observed q) b
                   = mkBlockTrack (Some (observed q)) (observedAt q) (stallThreshold b)).
    { apply observe_advance. unfold advances.
      destruct (lastObservedNumber b); assumption. }
    rewrite Hobs in Hv.
    destruct (pollVerdicts _ polls) as [verdicts final] eqn:Hrun.
    cbn [fst] in Hv. destruct Hv as [<- | Hv].
    + apply checkLiveness_live. cbn. apply Hgap. left. reflexivity.
    + apply (IH (mkBlockTrack (Some (observed q)) (observedAt q) (stallThreshold b))).
      * exact Hinc.
      * intros q' Hq'. cbn. apply Hgap. right. exact Hq'.
      * rewrite Hrun. exact Hv.
Qed.

(** A number that is observed again and again: the tracker stays where the
    first observation put it. *)
Lemma pollVerdicts_repeated (polls : list Poll) : forall b n,
  lastObservedNumber b = Some n ->
  (forall q, In q polls -> observed q = n) ->
  snd (pollVerdicts b polls) = b.
Proof.
  induction polls as [|q polls IH]; intros b n Hb Hall; cbn [pollVerdicts].
  - reflexivity.
  - assert (Hobs : observe (observedAt q) (observed q) b = b).
    { apply observe_same. unfold advances. rewrite Hb, (Hall q (or_introl eq_refl)). lia. }
    rewrite Hobs. specialize (IH b n Hb (fun q' H => Hall q' (or_intror H))).
    destruct (pollVerdicts b polls) as [verdicts final]. exact IH.
Qed.

Lemma pollVerdicts_repeated_verdicts (polls : list Poll) : forall b n,
  lastObservedNumber b = Some n ->
  (forall q, In q polls -> observed q = n) ->
  fst (pollVerdicts b polls) = map (fun q => checkLiveness (checkedAt q) b) polls.
Proof.
  induction polls as [|q polls IH]; intros b n Hb Hall; cbn [pollVerdicts map].
  - reflexivity.
  - assert (Hobs : observe (observedAt q) (observed q) b = b).
    { apply observe_same. unfold advances. rewrite Hb, (Hall q (or_introl eq_refl)). lia. }
    rewrite Hobs. specialize (IH b n Hb (fun q' H => Hall q' (or_intror H))).
    destruct (pollVerdicts b polls) as [verdicts final]. cbn [fst] in *.
    rewrite IH. reflexivity.
Qed.

(** C3: [observe] puts the number and the clock reading into the tracker
    exactly when the number is above the last observed one or nothing was
    observed before, and otherwise returns the tracker as it is (it has no
    error to give); [checkLiveness] answers stalled, with the elapsed time,
    exactly when the time since the last advance is above the stall
    threshold.  Hence polls with strictly increasing numbers, each checked
    within the threshold of its observation, never give a stall verdict; and
    when one number is observed again and again by a tracker with no earlier
    observation, the verdict of a poll is stalled exactly when its check
    comes more than the threshold after the first observation. *)
Theorem tracker_observe_and_liveness :
  (forall now n b,
     advances b n -> observe now n b = mkBlockTrack (Some n) now (stallThreshold b)) /\
  (forall now n b, ~ advances b n -> observe now n b = b) /\
  (forall now b e,
     checkLiveness now b = Some e <->
     stallThreshold b < time_Sub now (lastAdvanceTime b) /\
     e = ErrStalled (time_Sub now (lastAdvanceTime b))) /\
  (forall b polls,
     increasingFrom (lastObservedNumber b) polls ->
     (forall q, In q polls ->
        time_Sub (checkedAt q) (observedAt q) <= stallThreshold b) ->
     forall v, In v (fst (pollVerdicts b polls)) -> v = None) /\
  (forall b q polls,
     lastObservedNumber b = None ->
     (forall q', In q' polls -> observed q' = observed q) ->
     fst (pollVerdicts b (q :: polls))
     = map (fun q' =>
              let elapsed := time_Sub (checkedAt q') (observedAt q) in
              if stallThreshold b <? elapsed then Some (ErrStalled elapsed) else None)
           (q :: polls)).
Proof.
  split; [exact observe_advance|]. split; [exact observe_same|].
  split; [exact checkLiveness_stalled|].
  split; [intros b polls; exact (pollVerdicts_increasing polls b)|].
  intros b q polls Hb Hall. cbn [pollVerdicts map].
  assert (Hobs : observe (observedAt q) (observed q) b
                 = mkBlockTrack (Some (observed q)) (observedAt q) (stallThreshold b)).
  { apply observe_advance. unfold advances. rewrite Hb. exact I. }
  rewrite Hobs.
  pose proof (pollVerdicts_repeated_verdicts polls
                (mkBlockTrack (Some (observed q)) (observedAt q) (stallThreshold b))
                (observed q) eq_refl Hall) as Hrest.
  destruct (pollVerdicts _ polls) as [verdicts final]. cbn [fst] in *.
  rewrite Hrest. reflexivity.
Qed.

Lemma tracker_observe_and_liveness_witness :
  fst (pollVerdicts (blockTrack freshProc)
         [mkPoll (after 1 0) 10 (after 2 0);
          mkPoll (after 31 0) 11 (after 32 0);
          mkPoll (after 61 0) 12 (after 62 0)])
  = [None; None; None]
  /\ fst (pollVerdicts (blockTrack freshProc)
            [mkPoll (after 1 0) 10 (after 2 0);
             mkPoll (after 31 0) 10 (after 32 0);
             mkPoll (after 61 0) 10 (after 62 0)])
     = [None; None; Some (ErrStalled (61 * Second))]
  /\ observe (after 5 0) 9 (mkBlockTrack (Some 10) (after 1 0) (60 * Second))
     = mkBlockTrack (Some 10) (after 1 0) (60 * Second)
  /\ observe (after 5 0) 11 (mkBlockTrack (Some 10) (after 1 0) (60 * Second))
     = mkBlockTrack (Some 11) (after 5 0) (60 * Second)
  /\ checkLiveness (after 62 0) (mkBlockTrack (Some 10) (after 1 0) (60 * Second))
     = Some (ErrStalled (61 * Second)).
Proof.
  destruct tracker_observe_and_liveness as (Hadv & Hsame & Hstall & Hinc & Hrep).
  split; [| split; [| split; [| split]]].
  - assert (Hall : forall v, In v (fst (pollVerdicts (blockTrack freshProc)
         [mkPoll (after 1 0) 10 (after 2 0);
          mkPoll (after 31 0) 11 (after 32 0);
          mkPoll (after 61 0) 12 (after 62 0)])) -> v = None).
    { apply Hinc.
      - cbn. repeat split; lia.
      - intros q [<- | [<- | [<- | []]]]; vm_compute; discriminate. }
    destruct (fst (pollVerdicts _ _)) as [|v1 [|v2 [|v3 [|]]]] eqn:E;
      try discriminate E.
    rewrite (Hall v1), (Hall v2), (Hall v3); cbn; auto.
  - rewrite Hrep.
    + reflexivity.
    + reflexivity.
    + intros q' [<- | [<- | []]]; reflexivity.
  - apply Hsame. cbn. lia.
  - apply Hadv. cbn. lia.
  - apply Hstall. split; [vm_compute; reflexivity | reflexivity].
Defined.

(** ** The latest-block part of [isReady] *)

Lemma reachesLatestBlock_frame addr token timeout tol w p b p2 :
  reachesLatestBlock addr token timeout tol w p b p2 ->
  blockTrack p2 = blockTrack p /\ ticks p2 = ticks p.
Proof.
  intros (syncInfo & p1 & Hs & _ & Hb).
  destruct (getSyncing_frame _ _ _ _ _ _ _ Hs) as (Hb1 & Ht1 & _).
  destruct (getLatestBlock_frame _ _ _ _ _ _ _ Hb) as (Hb2 & Ht2 & _).
  split; congruence.
Qed.

(** What [isReady] returns once the latest block has a readable number: the
    number is observed first, then the age is checked, then the tracker is
    asked. *)
Lemma isReady_block_run addr token timeout tol w p b p2 n :
  reachesLatestBlock addr token timeout tol w p b p2 ->
  Block_number b = Ok n ->
  let tr := observe (clock w (ticks p)) n (blockTrack p) in
  isReady addr token timeout tol w p
  = match Block_time b with
    | Err e => (Err e, mkProc tr (sent p2) (S (ticks p)))
    | Ok created =>
        match ageVerdict (time_Sub (clock w (S (ticks p))) created) with
        | Some e => (Err e, mkProc tr (sent p2) (S (S (ticks p))))
        | None =>
            match checkLiveness (clock w (S (S (ticks p)))) tr with
            | Some e => (Err e, mkProc tr (sent p2) (S (S (S (ticks p)))))
            | None => (Ok tt, mkProc tr (sent p2) (S (S (S (ticks p)))))
            end
        end
    end.
Proof.
  intros Hreach Hn.
  destruct (reachesLatestBlock_frame _ _ _ _ _ _ _ _ Hreach) as [Hb2 Ht2].
  destruct Hreach as (syncInfo & p1 & Hs & Hlag & Hb).
  cbv zeta. rewrite isReady_run, Hs, Hlag.
  rewrite (checkLatestBlock_run _ _ _ _ _ _ _ _ Hb Hn). cbv zeta.
  rewrite Hb2, Ht2. reflexivity.
Qed.

Lemma time_Sub_old now created :
  300 * Second < instant now - instant created ->
  time_Sub now created = Z.min (instant now - instant created) maxDuration.
Proof.
  unfold time_Sub. cbv zeta. generalize (instant now - instant created). intros d.
  unfold Second, Nanosecond, maxDuration, minDuration, maxInt64, minInt64.
  change (2 ^ 63) with 9223372036854775808. intros H.
  destruct (Z.ltb_spec (9223372036854775808 - 1) d).
  - rewrite Z.min_r by lia. reflexivity.
  - rewrite Z.min_l by lia.
    match goal with |- context [?a <? ?b] => destruct (Z.ltb_spec a b) end;
      [lia | reflexivity].
Qed.

Lemma time_Sub_recent now created :
  instant now - instant created <= 300 * Second ->
  time_Sub now created <= 300 * Second.
Proof.
  unfold time_Sub. cbv zeta. generalize (instant now - instant created). intros d.
  unfold Second, Nanosecond, maxDuration, minDuration, maxInt64, minInt64.
  change (2 ^ 63) with 9223372036854775808. intros H.
  destruct (Z.ltb_spec (9223372036854775808 - 1) d).
  - lia.
  - match goal with |- context [?a <? ?b] => destruct (Z.ltb_spec a b) end; lia.
Qed.

Lemma ageVerdict_old age :
  300 * Second < age -> ageVerdict age = Some (ErrBlockTooOld (Truncate age Second)).
Proof.
  unfold ageVerdict. intros H. destruct (Z.ltb_spec (300 * Second) age); [reflexivity | lia].
Qed.

Lemma ageVerdict_recent age :
  age <= 300 * Second -> ageVerdict age = None.
Proof.
  unfold ageVerdict. intros H. destruct (Z.ltb_spec (300 * Second) age); [lia | reflexivity].
Qed.

Lemma Block_checkAge_run b created w p :
  Block_time b = Ok created ->
  Block_checkAge b w p
  = (match ageVerdict (time_Sub (clock w (ticks p)) created) with
     | Some e => Err e
     | None => Ok tt
     end, mkProc (blockTrack p) (sent p) (S (ticks p))).
Proof.
  intros Ht. unfold Block_checkAge. rewrite Ht. run_go.
  destruct (ageVerdict _); reflexivity.
Qed.

Lemma Truncate_400 age :
  400 * Second <= age < 401 * Second ->
  Truncate (Z.min age maxDuration) Second = 400 * Second.
Proof.
  unfold Truncate, Second, Nanosecond, maxDuration, maxInt64.
  change (2 ^ 63) with 9223372036854775808. intros H.
  rewrite Z.min_l by lia.
  destruct (Z.leb_spec (1000000000 * 1) 0); [lia|].
  rewrite Z.rem_mod_nonneg by lia.
  assert (Hq : 400 = age / (1000000000 * 1)).
  { apply (Z.div_unique age (1000000000 * 1) 400 (age - 400 * (1000000000 * 1))); lia. }
  pose proof (Z.div_mod age (1000000000 * 1) ltac:(lia)) as Hdm.
  rewrite <- Hq in Hdm. lia.
Qed.

(** C7: a latest block whose decoded timestamp lies more than 300 seconds
    before the clock reading fails [checkAge], and with it [isReady], with
    the too-old error that reports the age, the time between the two,
    capped at the largest duration and cut to whole seconds; a block whose
    age is at most 300 seconds passes the check, and [isReady] then returns
    what the tracker says.  An age of 400 seconds and a fraction is reported
    as 400 seconds. *)
Theorem checkAge_freshness :
  (forall b created w p,
     Block_time b = Ok created ->
     (300 * Second < instant (clock w (ticks p)) - instant created ->
      fst (Block_checkAge b w p)
      = Err (ErrBlockTooOld
               (Truncate (Z.min (instant (clock w (ticks p)) - instant created)
                                maxDuration) Second))) /\
     (instant (clock w (ticks p)) - instant created <= 300 * Second ->
      fst (Block_checkAge b w p) = Ok tt)) /\
  (forall addr token timeout tol w p b p2 n created,
     reachesLatestBlock addr token timeout tol w p b p2 ->
     Block_number b = Ok n ->
     Block_time b = Ok created ->
     (300 * Second < instant (clock w (S (ticks p))) - instant created ->
      fst (isReady addr token timeout tol w p)
      = Err (ErrBlockTooOld
               (Truncate (Z.min (instant (clock w (S (ticks p))) - instant created)
                                maxDuration) Second))) /\
     (instant (clock w (S (ticks p))) - instant created <= 300 * Second ->
      fst (isReady addr token timeout tol w p)
      = match checkLiveness (clock w (S (S (ticks p))))
                (observe (clock w (ticks p)) n (blockTrack p)) with
        | Some e => Err e
        | None => Ok tt
        end)) /\
  (forall age, 400 * Second <= age < 401 * Second ->
     Truncate (Z.min age maxDuration) Second = 400 * Second).
Proof.
  split; [| split; [| exact Truncate_400]].
  - intros b created w p Ht. rewrite (Block_checkAge_run b created w p Ht). cbn [fst].
    split; intros H.
    + rewrite ageVerdict_old; rewrite time_Sub_old by exact H; [reflexivity|].
      unfold maxDuration, maxInt64, Second, Nanosecond in *. lia.
    + rewrite ageVerdict_recent; [reflexivity | apply time_Sub_recent; exact H].
  - intros addr token timeout tol w p b p2 n created Hreach Hn Ht.
    rewrite (isReady_block_run _ _ _ _ _ _ _ _ _ Hreach Hn), Ht. cbv zeta.
    split; intros H.
    + rewrite ageVerdict_old; rewrite time_Sub_old by exact H; [reflexivity|].
      unfold maxDuration, maxInt64, Second, Nanosecond in *. lia.
    + rewrite ageVerdict_recent by (apply time_Sub_recent; exact H).
      destruct (checkLiveness _ _); reflexivity.
Qed.

Lemma checkAge_freshness_witness :
  fst (isReady nodeAddr noToken 5 0 scenarioB freshProc)
  = Err (ErrBlockTooOld (400 * Second))
  /\ fst (isReady nodeAddr noToken 5 0 scenarioFresh freshProc) = Ok tt
  /\ fst (Block_checkAge (mkBlock "0x6553ef70" "0x10") scenarioB freshProc)
     = Err (ErrBlockTooOld (400 * Second))
  /\ fst (Block_checkAge (mkBlock "0x6553f100" "0x10") scenarioFresh freshProc) = Ok tt
  /\ Truncate (Z.min (400 * Second + 5) maxDuration) Second = 400 * Second.
Proof.
  destruct checkAge_freshness as (Hage & Hready & Htrunc).
  split; [| split; [| split; [| split]]].
  - destruct (Hready nodeAddr noToken 5 0 scenarioB freshProc
                (mkBlock "0x6553ef70" "0x10") _ 16 (time_Unix 1699999600)
                ltac:(eexists; eexists; repeat split; reflexivity)
                eq_refl eq_refl) as [Hold _].
    rewrite Hold by (vm_compute; reflexivity). reflexivity.
  - destruct (Hready nodeAddr noToken 5 0 scenarioFresh freshProc
                (mkBlock "0x6553f100" "0x10") _ 16 (time_Unix 1700000000)
                ltac:(eexists; eexists; repeat split; reflexivity)
                eq_refl eq_refl) as [_ Hnew].
    rewrite Hnew by (vm_compute; discriminate). reflexivity.
  - destruct (Hage (mkBlock "0x6553ef70" "0x10") (time_Unix 1699999600)
                scenarioB freshProc eq_refl) as [Hold _].
    rewrite Hold by (vm_compute; reflexivity). reflexivity.
  - destruct (Hage (mkBlock "0x6553f100" "0x10") (time_Unix 1700000000)
                scenarioFresh freshProc eq_refl) as [_ Hnew].
    apply Hnew. vm_compute. discriminate.
  - apply Htrunc. vm_compute. split; [discriminate | reflexivity].
Defined.

(** ** The order of the steps *)

Lemma request_errors addr token timeout payload w p e p1 :
  request addr token timeout payload w p = (Err e, p1) -> isTransportError e = true.
Proof.
  unfold request.
  destruct (validURL w addr); cbn [negb].
  - destruct (net w _ _) as [|code [body|]].
    + intros H. injection H as <- _. reflexivity.
    + destruct (code =? 200); cbn [negb]; intros H; [discriminate H|].
      injection H as <- _. reflexivity.
    + destruct (code =? 200); cbn [negb]; intros H; injection H as <- _; reflexivity.
  - intros H. injection H as <- _. reflexivity.
Qed.

Lemma getSyncing_errors addr token timeout w p e p1 :
  getSyncing addr token timeout w p = (Err e, p1) ->
  isTransportError e = true \/ (exists j, e = ErrUnmarshal j) \/ e = ErrSyncingTrue.
Proof.
  rewrite getSyncing_run.
  destruct (request _ _ _ _ w p) as [[body|e'] p'] eqn:Hreq.
  - destruct (UnmarshalSync body); [discriminate|].
    destruct (UnmarshalBool body) as [[[]]|j]; intros H; try discriminate H;
      injection H as <- _; eauto.
  - intros H. injection H as <- _. left. eapply request_errors. exact Hreq.
Qed.

Lemma getSyncing_sent addr token timeout w p syncInfo p1 :
  getSyncing addr token timeout w p = (Ok syncInfo, p1) ->
  sent p1 = buildRequest addr token timeout payload_eth_syncing :: sent p.
Proof.
  rewrite getSyncing_run.
  destruct (request _ _ _ _ w p) as [[body|e'] p'] eqn:Hreq; intros H;
    [|discriminate H].
  injection H as _ <-.
  destruct (request_frame _ _ _ _ _ _ _ _ Hreq) as (_ & _ & _ & Hs).
  eapply Hs. reflexivity.
Qed.

Lemma getLatestBlock_errors addr token timeout w p e p1 :
  getLatestBlock addr token timeout w p = (Err e, p1) ->
  isTransportError e = true \/ (exists j, e = ErrUnmarshal j).
Proof.
  rewrite getLatestBlock_run.
  destruct (request _ _ _ _ w p) as [[body|e'] p'] eqn:Hreq.
  - destruct (UnmarshalBlock body) as [r|j]; intros H; [discriminate H|].
    injection H as <- _. eauto.
  - intros H. injection H as <- _. left. eapply request_errors. exact Hreq.
Qed.

Lemma Block_number_errors b e :
  Block_number b = Err e -> exists ne, e = ErrBlockNumber ne.
Proof.
  unfold Block_number. cbv zeta.
  destruct (ParseUint _ 16 64) as [v [ne|]]; intros H; [|discriminate H].
  injection H as <-. eauto.
Qed.

Lemma Block_time_errors b e :
  Block_time b = Err e -> exists ne, e = ErrBlockTimestamp ne.
Proof.
  unfold Block_time. cbv zeta.
  destruct (ParseInt _ 16 64) as [v [ne|]]; intros H; [|discriminate H].
  injection H as <-. eauto.
Qed.

Lemma checkLatestBlock_number_error addr token timeout w p1 b p2 e :
  getLatestBlock addr token timeout w p1 = (Ok b, p2) ->
  Block_number b = Err e ->
  checkLatestBlock addr token timeout w p1 = (Err e, p2).
Proof.
  intros Hb Hn. unfold checkLatestBlock, bind. rewrite Hb, Hn. reflexivity.
Qed.

Lemma checkLatestBlock_request_error addr token timeout w p1 e p2 :
  getLatestBlock addr token timeout w p1 = (Err e, p2) ->
  checkLatestBlock addr token timeout w p1 = (Err e, p2).
Proof.
  intros Hb. unfold checkLatestBlock, bind. rewrite Hb. reflexivity.
Qed.

Lemma reachesLatestBlock_sent addr token timeout tol w p b p2 :
  reachesLatestBlock addr token timeout tol w p b p2 ->
  sent p2 = buildRequest addr token timeout payload_eth_getBlockByNumber
            :: buildRequest addr token timeout payload_eth_syncing :: sent p.
Proof.
  intros (syncInfo & p1 & Hs & _ & Hb).
  destruct (getLatestBlock_frame _ _ _ _ _ _ _ Hb) as (_ & _ & ->).
  rewrite (getSyncing_sent _ _ _ _ _ _ _ Hs). reflexivity.
Qed.

(** A cycle that ends with the too-old error went through the sync step,
    received a block and read its number. *)
Lemma isReady_too_old_inv addr token timeout tol w p age pf :
  isReady addr token timeout tol w p = (Err (ErrBlockTooOld age), pf) ->
  exists b p2 n,
    reachesLatestBlock addr token timeout tol w p b p2 /\ Block_number b = Ok n.
Proof.
  rewrite isReady_run.
  destruct (getSyncing _ _ _ w p) as [[syncInfo|e] p1] eqn:Hs.
  - destruct (fst (checkSyncLag syncInfo tol w p1)) as [[]|e] eqn:Hlag.
    + destruct (getLatestBlock addr token timeout w p1) as [[b|e] p2] eqn:Hb.
      * destruct (Block_number b) as [n|e] eqn:Hn.
        -- intros _. exists b, p2, n. split; [|exact Hn].
           exists syncInfo, p1. auto.
        -- rewrite (checkLatestBlock_number_error _ _ _ _ _ _ _ _ Hb Hn).
           destruct (Block_number_errors _ _ Hn) as [ne ->]. discriminate.
      * rewrite (checkLatestBlock_request_error _ _ _ _ _ _ _ Hb).
        destruct (getLatestBlock_errors _ _ _ _ _ _ _ Hb) as [Ht | [j ->]];
          [|discriminate].
        intros H. injection H as -> _. discriminate Ht.
    + unfold checkSyncLag in Hlag. destruct syncInfo as [si|]; [|discriminate Hlag].
      cbv zeta in Hlag. destruct (tol <? distance si); [|discriminate Hlag].
      injection Hlag as <-. discriminate.
  - destruct (getSyncing_errors _ _ _ _ _ _ _ Hs) as [Ht | [[j ->] | ->]];
      try discriminate.
    intros H. injection H as -> _. discriminate Ht.
Qed.

Lemma isReady_block_state addr token timeout tol w p b p2 n r pf :
  reachesLatestBlock addr token timeout tol w p b p2 ->
  Block_number b = Ok n ->
  isReady addr token timeout tol w p = (r, pf) ->
  blockTrack pf = observe (clock w (ticks p)) n (blockTrack p) /\
  sent pf = buildRequest addr token timeout payload_eth_getBlockByNumber
            :: buildRequest addr token timeout payload_eth_syncing :: sent p.
Proof.
  intros Hreach Hn.
  rewrite (isReady_block_run _ _ _ _ _ _ _ _ _ Hreach Hn). cbv zeta.
  rewrite <- (reachesLatestBlock_sent _ _ _ _ _ _ _ _ Hreach).
  destruct (Block_time b) as [created|e].
  - destruct (ageVerdict _) as [e|].
    + intros H. injection H as _ <-. auto.
    + destruct (checkLiveness _ _) as [e|]; intros H; injection H as _ <-; auto.
  - intros H. injection H as _ <-. auto.
Qed.

(** C8: when the sync step fails, by a transport or decode error of
    [getSyncing] or by the sync-lag test, [isReady] returns that error at
    once: the tracker and the clock are as before and no latest-block
    request was sent (at most the sync request).  When the cycle goes on and
    the block number is read, the tracker observes it before the age check
    and before the liveness verdict: whatever the cycle returns, the tracker
    holds the observation; a cycle that ends with the too-old error is such
    a cycle. *)
Theorem isReady_step_order :
  (forall addr token timeout tol w p e p1,
     getSyncing addr token timeout w p = (Err e, p1) ->
     isReady addr token timeout tol w p = (Err e, p1) /\
     blockTrack p1 = blockTrack p /\ ticks p1 = ticks p /\
     (sent p1 = sent p \/
      sent p1 = buildRequest addr token timeout payload_eth_syncing :: sent p)) /\
  (forall addr token timeout tol w p si p1,
     getSyncing addr token timeout w p = (Ok (Some si), p1) ->
     tol < distance si ->
     isReady addr token timeout tol w p = (Err (ErrSyncLag (distance si) tol), p1) /\
     blockTrack p1 = blockTrack p /\ ticks p1 = ticks p /\
     sent p1 = buildRequest addr token timeout payload_eth_syncing :: sent p) /\
  (forall addr token timeout tol w p b p2 n r pf,
     reachesLatestBlock addr token timeout tol w p b p2 ->
     Block_number b = Ok n ->
     isReady addr token timeout tol w p = (r, pf) ->
     blockTrack pf = observe (clock w (ticks p)) n (blockTrack p) /\
     sent pf = buildRequest addr token timeout payload_eth_getBlockByNumber
               :: buildRequest addr token timeout payload_eth_syncing :: sent p) /\
  (forall addr token timeout tol w p age pf,
     isReady addr token timeout tol w p = (Err (ErrBlockTooOld age), pf) ->
     exists b p2 n,
       reachesLatestBlock addr token timeout tol w p b p2 /\
       Block_number b = Ok n /\
       blockTrack pf = observe (clock w (ticks p)) n (blockTrack p)).
Proof.
  split; [| split; [| split]].
  - intros addr token timeout tol w p e p1 Hs.
    rewrite isReady_run, Hs. split; [reflexivity|].
    exact (getSyncing_frame _ _ _ _ _ _ _ Hs).
  - intros addr token timeout tol w p si p1 Hs Hlag.
    rewrite isReady_run, Hs. unfold checkSyncLag. cbv zeta.
    destruct (Z.ltb_spec tol (distance si)); [|lia]. cbn [fst].
    split; [reflexivity|].
    destruct (getSyncing_frame _ _ _ _ _ _ _ Hs) as (Hb & Ht & _).
    repeat split; auto. exact (getSyncing_sent _ _ _ _ _ _ _ Hs).
  - intros addr token timeout tol w p b p2 n r pf.
    apply isReady_block_state.
  - intros addr token timeout tol w p age pf H.
    destruct (isReady_too_old_inv _ _ _ _ _ _ _ _ H) as (b & p2 & n & Hreach & Hn).
    exists b, p2, n. split; [exact Hreach|]. split; [exact Hn|].
    exact (proj1 (isReady_block_state _ _ _ _ _ _ _ _ _ _ _ Hreach Hn H)).
Qed.

Lemma isReady_step_order_witness :
  isReady nodeAddr noToken 5 0 (scriptedWorld [Responds 500 None] []) freshProc
  = (Err (ErrStatusCode 500),
     mkProc (blockTrack freshProc)
            [buildRequest nodeAddr noToken 5 payload_eth_syncing] 0)
  /\ snd (isReady nodeAddr noToken 5 5
            (scriptedWorld [Responds 200 (Some scenarioA)] []) freshProc)
     = mkProc (blockTrack freshProc)
              [buildRequest nodeAddr noToken 5 payload_eth_syncing] 0
  /\ blockTrack (snd (isReady nodeAddr noToken 5 0 scenarioB freshProc))
     = mkBlockTrack (Some 16) (after 0 0) (60 * Second)
  /\ (exists b p2 n,
        reachesLatestBlock nodeAddr noToken 5 0 scenarioB freshProc b p2 /\
        Block_number b = Ok n /\
        blockTrack (snd (isReady nodeAddr noToken 5 0 scenarioB freshProc))
        = observe (clock scenarioB (ticks freshProc)) n (blockTrack freshProc)).
Proof.
  destruct isReady_step_order as (Hfail & Hlag & Hgo & Hold).
  split; [| split; [| split]].
  - refine (proj1 (Hfail nodeAddr noToken 5 0 (scriptedWorld [Responds 500 None] [])
                     freshProc _ _ _)). reflexivity.
  - destruct (Hlag nodeAddr noToken 5 5 (scriptedWorld [Responds 200 (Some scenarioA)] [])
                freshProc (mkSyncInfo "0x5a" "0x64") _ eq_refl
                ltac:(vm_compute; reflexivity)) as [-> _].
    reflexivity.
  - destruct (Hgo nodeAddr noToken 5 0 scenarioB freshProc
                (mkBlock "0x6553ef70" "0x10") _ 16 _ _
                ltac:(eexists; eexists; repeat split; reflexivity)
                eq_refl
                (surjective_pairing (isReady nodeAddr noToken 5 0 scenarioB freshProc)))
      as [-> _].
    reflexivity.
  - apply (Hold nodeAddr noToken 5 0 scenarioB freshProc (400 * Second)).
    reflexivity.
Defined.

(** ** The strict decoders of [Block] *)

Lemma TrimLeft_onlyZeroX (s : string) :
  onlyZeroX s = true -> TrimLeft s "0x" = EmptyString.
Proof.
  induction s as [|c s IH]; cbn [onlyZeroX TrimLeft]; [reflexivity|].
  intros H. apply andb_prop in H as [Hc Hs]. rewrite Hc. exact (IH Hs).
Qed.

Lemma isReady_number_error addr token timeout tol w p b p2 e :
  reachesLatestBlock addr token timeout tol w p b p2 ->
  Block_number b = Err e ->
  isReady addr token timeout tol w p = (Err e, p2).
Proof.
  intros (syncInfo & p1 & Hs & Hlag & Hb) Hn.
  rewrite isReady_run, Hs, Hlag.
  exact (checkLatestBlock_number_error _ _ _ _ _ _ _ _ Hb Hn).
Qed.

(** C10: the strict decoders remove every leading [0] and [x], so a number
    or timestamp made of these bytes only, such as the encodings [0x0] and
    [0x00] of zero, leaves the empty string, which [ParseUint] and [ParseInt]
    refuse: [number] and [time] return a syntax error and [isReady] fails
    the cycle, although these strings are valid hex strings, which the
    best-effort parser reads as 0. *)
Theorem strict_decoders_reject_zero :
  (forall s, onlyZeroX s = true -> TrimLeft s "0x" = EmptyString) /\
  (forall b, onlyZeroX (Number b) = true ->
     Block_number b = Err (ErrBlockNumber (syntaxError "ParseUint" EmptyString))) /\
  (forall b, onlyZeroX (Timestamp b) = true ->
     Block_time b = Err (ErrBlockTimestamp (syntaxError "ParseInt" EmptyString))) /\
  (forall addr token timeout tol w p b p2,
     reachesLatestBlock addr token timeout tol w p b p2 ->
     onlyZeroX (Number b) = true ->
     isReady addr token timeout tol w p
     = (Err (ErrBlockNumber (syntaxError "ParseUint" EmptyString)), p2)) /\
  (forall addr token timeout tol w p b p2,
     reachesLatestBlock addr token timeout tol w p b p2 ->
     onlyZeroX (Timestamp b) = true ->
     fst (isReady addr token timeout tol w p)
     = Err (ErrBlockTimestamp (syntaxError "ParseInt" EmptyString)) \/
     exists ne, fst (isReady addr token timeout tol w p) = Err (ErrBlockNumber ne)) /\
  (onlyZeroX "0x0" = true /\ validHexString "0x0" = true /\ parseUintFromHex "0x0" = 0) /\
  (onlyZeroX "0x00" = true /\ validHexString "0x00" = true /\ parseUintFromHex "0x00" = 0).
Proof.
  assert (Hnum : forall b, onlyZeroX (Number b) = true ->
     Block_number b = Err (ErrBlockNumber (syntaxError "ParseUint" EmptyString))).
  { intros b H. unfold Block_number. cbv zeta. rewrite (TrimLeft_onlyZeroX _ H).
    reflexivity. }
  assert (Htime : forall b, onlyZeroX (Timestamp b) = true ->
     Block_time b = Err (ErrBlockTimestamp (syntaxError "ParseInt" EmptyString))).
  { intros b H. unfold Block_time. cbv zeta. rewrite (TrimLeft_onlyZeroX _ H).
    reflexivity. }
  split; [exact TrimLeft_onlyZeroX|]. split; [exact Hnum|]. split; [exact Htime|].
  split; [| split; [| split; repeat split; reflexivity]].
  - intros addr token timeout tol w p b p2 Hreach H.
    exact (isReady_number_error _ _ _ _ _ _ _ _ _ Hreach (Hnum b H)).
  - intros addr token timeout tol w p b p2 Hreach H.
    destruct (Block_number b) as [n|e] eqn:Hn.
    + left. rewrite (isReady_block_run _ _ _ _ _ _ _ _ _ Hreach Hn), (Htime b H).
      reflexivity.
    + right. destruct (Block_number_errors _ _ Hn) as [ne ->]. exists ne.
      rewrite (isReady_number_error _ _ _ _ _ _ _ _ _ Hreach Hn). reflexivity.
Qed.

Lemma strict_decoders_reject_zero_witness :
  fst (isReady nodeAddr noToken 5 0 (nodeWithBlock "0x0" "0x6553f100") freshProc)
  = Err (ErrBlockNumber (syntaxError "ParseUint" EmptyString))
  /\ fst (isReady nodeAddr noToken 5 0 (nodeWithBlock "0x10" "0x00") freshProc)
     = Err (ErrBlockTimestamp (syntaxError "ParseInt" EmptyString))
  /\ TrimLeft "0x00" "0x" = EmptyString
  /\ Block_number (mkBlock "0x6553f100" "0x0")
     = Err (ErrBlockNumber (syntaxError "ParseUint" EmptyString))
  /\ Block_time (mkBlock "0x0" "0x10")
     = Err (ErrBlockTimestamp (syntaxError "ParseInt" EmptyString)).
Proof.
  destruct strict_decoders_reject_zero as (Htrim & Hnum & Htime & Hready & Hready' & _).
  split; [| split; [| split; [| split]]].
  - erewrite (Hready nodeAddr noToken 5 0 (nodeWithBlock "0x0" "0x6553f100") freshProc
                (mkBlock "0x6553f100" "0x0"));
      [reflexivity | eexists; eexists; repeat split; reflexivity | reflexivity].
  - destruct (Hready' nodeAddr noToken 5 0 (nodeWithBlock "0x10" "0x00") freshProc
                (mkBlock "0x00" "0x10") _
                ltac:(eexists; eexists; repeat split; reflexivity) eq_refl)
      as [H | [ne H]].
    + exact H.
    + vm_compute in H. discriminate H.
  - apply Htrim. reflexivity.
  - apply Hnum. reflexivity.
  - apply Htime. reflexivity.
Defined.

(** C6 fails on the code: the number [0xx1a] is not a hex string (the
    best-effort parser gives 0 on it), yet [number] strips the leading [0],
    [x] and [x] and returns 26 with no error, and [isReady] succeeds and
    feeds 26 to the tracker; likewise [time] accepts a sign after the
    prefix. *)
Theorem strict_decoders_accept_malformed :
  validHexString "0xx1a" = false /\
  parseUintFromHex "0xx1a" = 0 /\
  Block_number (mkBlock "0x6553f100" "0xx1a") = Ok 26 /\
  isReady nodeAddr noToken 5 0 (nodeWithBlock "0xx1a" "0x6553f100") freshProc
  = (Ok tt,
     mkProc (mkBlockTrack (Some 26) (after 0 0) (60 * Second))
            [buildRequest nodeAddr noToken 5 payload_eth_getBlockByNumber;
             buildRequest nodeAddr noToken 5 payload_eth_syncing] 3) /\
  validHexString "0x+6553f100" = false /\
  Block_time (mkBlock "0x+6553f100" "0x10") = Ok (time_Unix 1700000000).
Proof. repeat split; reflexivity. Qed.

(** ** One tracker for the whole process *)

(** C9, as amended: the tracker is the one package-level variable of the
    process, and every cycle of [isReady] works on it whatever address it
    polls: after a cycle against one address and a cycle against another,
    both of which read a block number, the tracker holds the second number
    observed on top of the first; if the second number is not above the
    first, the second cycle leaves the tracker, and so the stall clock, as
    the first cycle left it. *)
Theorem blockTrack_shared :
  forall addrA addrB token timeout tol w p bA pA2 nA rA pA bB pB2 nB rB pB,
    reachesLatestBlock addrA token timeout tol w p bA pA2 ->
    Block_number bA = Ok nA ->
    isReady addrA token timeout tol w p = (rA, pA) ->
    reachesLatestBlock addrB token timeout tol w pA bB pB2 ->
    Block_number bB = Ok nB ->
    isReady addrB token timeout tol w pA = (rB, pB) ->
    blockTrack pB
    = observe (clock w (ticks pA)) nB (observe (clock w (ticks p)) nA (blockTrack p)) /\
    (advances (blockTrack p) nA -> nB <= nA -> blockTrack pB = blockTrack pA).
Proof.
  intros addrA addrB token timeout tol w p bA pA2 nA rA pA bB pB2 nB rB pB
         HreachA HnA HA HreachB HnB HB.
  destruct (isReady_block_state _ _ _ _ _ _ _ _ _ _ _ HreachA HnA HA) as [HtA _].
  destruct (isReady_block_state _ _ _ _ _ _ _ _ _ _ _ HreachB HnB HB) as [HtB _].
  split.
  - rewrite HtB, HtA. reflexivity.
  - intros Hadv Hle. rewrite HtB. apply observe_same.
    rewrite HtA, (observe_advance _ _ _ Hadv). unfold advances. cbn. lia.
Qed.

Lemma blockTrack_shared_witness :
  blockTrack (snd (isReady nodeB noToken 5 0 twoNodes afterNodeA))
  = observe (after 90 0) 50 (observe (after 0 0) 100 (blockTrack freshProc))
  /\ blockTrack (snd (isReady nodeB noToken 5 0 twoNodes afterNodeA))
     = blockTrack afterNodeA.
Proof.
  destruct (blockTrack_shared nodeA nodeB noToken 5 0 twoNodes freshProc
              (mkBlock "0x6553f100" "0x64") _ 100 _ afterNodeA
              (mkBlock "0x6553f164" "0x32") _ 50 _ _
              ltac:(eexists; eexists; repeat split; reflexivity) eq_refl
              (surjective_pairing (isReady nodeA noToken 5 0 twoNodes freshProc))
              ltac:(eexists; eexists; repeat split; reflexivity) eq_refl
              (surjective_pairing (isReady nodeB noToken 5 0 twoNodes afterNodeA)))
    as [Hboth Hsame].
  split.
  - exact Hboth.
  - apply Hsame; [exact I | lia].
Defined.

(** C9 as first stated fails: node B, whose block is fresh and whose cycle
    on a tracker of its own is healthy, is reported stalled because the
    cycle against node A had put block 100 into the shared tracker 150
    seconds before. *)
Lemma shared_tracker_counterexample :
  blockTrack afterNodeA = mkBlockTrack (Some 100) (after 0 0) (60 * Second) /\
  fst (isReady nodeB noToken 5 0 twoNodes afterNodeA_ownTracker) = Ok tt /\
  fst (isReady nodeB noToken 5 0 twoNodes afterNodeA) = Err (ErrStalled (150 * Second)) /\
  ~ trackerPerTarget.
Proof.
  split; [reflexivity|]. split; [reflexivity|]. split; [reflexivity|].
  intros H.
  specialize (H nodeA nodeB noToken 5 0 twoNodes freshProc ltac:(discriminate)).
  vm_compute in H. discriminate H.
Qed.

(** * Further properties of the code *)

(** ** The strict decoders on what they accept *)

Lemma parseUintLoop_overflow_exact (s0 s : string) : forall n,
  allHex s = true -> 0 <= n <= maxVal64 -> maxVal64 < hexValueFrom n s ->
  parseUintLoop s0 16 cutoff16 maxVal64 s n
  = (maxVal64, Some (rangeError "ParseUint" s0)).
Proof.
  induction s as [|c s IH]; intros n Hs Hn Hv; cbn [parseUintLoop hexValueFrom] in *.
  - lia.
  - cbn [allHex] in Hs. apply andb_prop in Hs as [Hc Hs].
    destruct (digitVal_hex c Hc) as [-> Hd].
    destruct (Z.leb_spec 16 (hexDigitValue c)); [lia|].
    destruct (Z.leb_spec cutoff16 n); [reflexivity|].
    unfold cutoff16, maxVal64 in *.
    rewrite (wrap64u_small (n * 16)) by (unfold maxVal64; lia).
    rewrite (wrap64u_small (n * 16 + hexDigitValue c)) by (unfold maxVal64; lia).
    destruct (Z.ltb_spec (n * 16 + hexDigitValue c) (n * 16)); [lia|].
    destruct (Z.ltb_spec 18446744073709551615 (n * 16 + hexDigitValue c)); [lia|].
    cbn [orb]. apply IH; [assumption | lia | assumption].
Qed.

(** What [ParseUint] makes of a non-empty string, by the three kinds of
    string there are. *)
Lemma ParseUint_cases (c : ascii) (ds : string) :
  (allHex (String c ds) = true /\ hexValueFrom 0 (String c ds) <= maxVal64 /\
   ParseUint (String c ds) 16 64 = (hexValueFrom 0 (String c ds), None)) \/
  (allHex (String c ds) = true /\ maxVal64 < hexValueFrom 0 (String c ds) /\
   ParseUint (String c ds) 16 64
   = (maxVal64, Some (rangeError "ParseUint" (String c ds)))) \/
  (allHex (String c ds) = false /\
   exists v e, ParseUint (String c ds) 16 64 = (v, Some e)).
Proof.
  rewrite ParseUint_16_64.
  destruct (allHex (String c ds)) eqn:Hhex.
  - destruct (Z.le_gt_cases (hexValueFrom 0 (String c ds)) maxVal64) as [Hfit | Hbig].
    + left. repeat split; [exact Hfit|].
      apply parseUintLoop_value; [exact Hhex | lia | exact Hfit].
    + right. left. repeat split; [exact Hbig|].
      apply parseUintLoop_overflow_exact; [exact Hhex | unfold maxVal64; lia | exact Hbig].
  - right. right. split; [reflexivity|].
    apply parseUintLoop_not_hex. exact Hhex.
Qed.

Lemma Block_number_value (b : Block) :
  TrimLeft (Number b) "0x" <> EmptyString ->
  allHex (TrimLeft (Number b) "0x") = true ->
  hexValueFrom 0 (TrimLeft (Number b) "0x") <= maxUint64 ->
  Block_number b = Ok (hexValueFrom 0 (TrimLeft (Number b) "0x")).
Proof.
  unfold Block_number. cbv zeta.
  destruct (TrimLeft (Number b) "0x") as [|c ds]; [intros H; contradiction|].
  intros _ Hh Hfit.
  destruct (ParseUint_cases c ds) as [(_ & _ & ->) | [(_ & Hv & _) | (Hh' & _)]].
  - reflexivity.
  - unfold maxVal64, maxUint64 in *. lia.
  - congruence.
Qed.

(** X1: [number] returns a value exactly when what is left of the field
    after the leading [0] and [x] bytes is a non-empty string of hex digits
    whose value fits 64 bits, and the value returned is that number. *)
Theorem Block_number_accepts_iff (b : Block) (v : Z) :
  Block_number b = Ok v <->
  TrimLeft (Number b) "0x" <> EmptyString /\
  allHex (TrimLeft (Number b) "0x") = true /\
  hexValueFrom 0 (TrimLeft (Number b) "0x") <= maxUint64 /\
  v = hexValueFrom 0 (TrimLeft (Number b) "0x").
Proof.
  unfold Block_number. cbv zeta.
  destruct (TrimLeft (Number b) "0x") as [|c ds].
  - cbn. split; [discriminate | intros [H _]; contradiction].
  - destruct (ParseUint_cases c ds) as [(Hh & Hv & ->) | [(Hh & Hv & ->) | (Hh & v' & e & ->)]].
    + split.
      * intros H. injection H as <-. repeat split; try assumption. discriminate.
      * intros (_ & _ & _ & ->). reflexivity.
    + split; [discriminate|]. intros (_ & _ & Hfit & _).
      unfold maxVal64, maxUint64 in *. lia.
    + split; [discriminate|]. intros (_ & Hh' & _). congruence.
Qed.

Lemma Block_number_accepts_iff_witness :
  Block_number (mkBlock "0x6553f100" "0x1a") = Ok 26 /\
  hexValueFrom 0 (TrimLeft "0x00ff" "0x") <= maxUint64.
Proof.
  split.
  - apply (proj2 (Block_number_accepts_iff (mkBlock "0x6553f100" "0x1a") 26)).
    repeat split; [discriminate | vm_compute; discriminate].
  - apply (proj1 (Block_number_accepts_iff (mkBlock "0x6553f100" "0x00ff") 255)).
    reflexivity.
Defined.

Lemma TrimLeft_TrimPrefix (s : string) :
  TrimLeft s "0x" = TrimLeft (TrimPrefix s "0x") "0x".
Proof.
  destruct s as [|c1 [|c2 s]]; try reflexivity.
  - unfold TrimPrefix. cbn [TrimPrefix_go]. destruct (Ascii.eqb c1 "0"); reflexivity.
  - unfold TrimPrefix. cbn [TrimPrefix_go].
    destruct (Ascii.eqb_spec c1 "0") as [-> |]; [|reflexivity].
    destruct (Ascii.eqb_spec c2 "x") as [-> |]; [|reflexivity].
    destruct s; reflexivity.
Qed.

(** On hex digits [TrimLeft] only drops leading zeros, which do not change
    the value. *)
Lemma TrimLeft_allHex (ds : string) :
  allHex ds = true ->
  allHex (TrimLeft ds "0x") = true /\
  hexValueFrom 0 (TrimLeft ds "0x") = hexValueFrom 0 ds.
Proof.
  induction ds as [|c ds IH]; intros Hs; [split; reflexivity|].
  cbn [TrimLeft]. destruct (inCutset c "0x") eqn:Hc; [|split; [exact Hs | reflexivity]].
  cbn [allHex] in Hs. apply andb_prop in Hs as [Hd Hs].
  assert (c = "0"%char) as ->.
  { cbn [inCutset] in Hc. destruct (Ascii.eqb_spec c "0"); [assumption|].
    destruct (Ascii.eqb_spec c "x") as [-> |]; [discriminate Hd | discriminate Hc]. }
  destruct (IH Hs) as [Hh Hv]. split; [exact Hh|]. rewrite Hv. reflexivity.
Qed.

(** X2: whenever the best-effort parser reads a field as a number other
    than 0, the strict decoder [number] reads the same field as the same
    number. *)
Theorem Block_number_agrees_with_parseUintFromHex (b : Block) :
  parseUintFromHex (Number b) <> 0 ->
  Block_number b = Ok (parseUintFromHex (Number b)).
Proof.
  intros Hnz.
  destruct (TrimPrefix (Number b) "0x") as [|c ds] eqn:Ht.
  - exfalso. apply Hnz. unfold parseUintFromHex. rewrite Ht.
    destruct (String.eqb (Number b) EmptyString); reflexivity.
  - rewrite (parseUintFromHex_trimmed _ c ds Ht) in Hnz |- *.
    rewrite <- ParseUint_16_64 in Hnz |- *.
    destruct (ParseUint_cases c ds) as [(Hh & Hv & Hp) | [(Hh & Hv & Hp) | (Hh & v' & e & Hp)]];
      rewrite Hp in Hnz |- *; try (exfalso; apply Hnz; reflexivity).
    destruct (TrimLeft_allHex _ Hh) as [Hh' Hv'].
    rewrite <- Hv', <- Ht, <- TrimLeft_TrimPrefix in *.
    apply Block_number_value; [| exact Hh' | unfold maxVal64, maxUint64 in *; lia].
    intros Hempty. rewrite Hempty in Hnz. apply Hnz. reflexivity.
Qed.

Lemma Block_number_agrees_with_parseUintFromHex_witness :
  Block_number (mkBlock "0x6553f100" "0x001a") = Ok 26 /\
  Block_number (mkBlock "0x6553f100" "ff") = Ok 255.
Proof.
  split.
  - apply (Block_number_agrees_with_parseUintFromHex (mkBlock "0x6553f100" "0x001a")).
    vm_compute. discriminate.
  - apply (Block_number_agrees_with_parseUintFromHex (mkBlock "0x6553f100" "ff")).
    vm_compute. discriminate.
Defined.

Lemma hex_digit_not_sign (c : ascii) :
  isHexDigit c = true -> Ascii.eqb c "+" = false /\ Ascii.eqb c "-" = false.
Proof. each_byte c H; split; reflexivity. Qed.

Lemma wrap64s_small (x : Z) : minInt64 <= x <= maxInt64 -> wrap64s x = x.
Proof.
  unfold wrap64s, minInt64, maxInt64.
  change (2 ^ 63) with 9223372036854775808. change (2 ^ 64) with 18446744073709551616.
  intros H. rewrite Z.mod_small by lia. lia.
Qed.

(** [ParseInt] on a non-empty string of hex digits. *)
Lemma ParseInt_hex (c : ascii) (ds : string) :
  allHex (String c ds) = true ->
  (hexValueFrom 0 (String c ds) <= maxInt64 ->
   ParseInt (String c ds) 16 64 = (hexValueFrom 0 (String c ds), None)) /\
  (maxInt64 < hexValueFrom 0 (String c ds) ->
   ParseInt (String c ds) 16 64
   = (maxInt64, Some (rangeError "ParseInt" (String c ds)))).
Proof.
  intros Hh.
  assert (Hc : isHexDigit c = true) by (cbn [allHex] in Hh; apply andb_prop in Hh; tauto).
  destruct (hex_digit_not_sign c Hc) as [Hplus Hminus].
  pose proof (hexValueFrom_ge (String c ds) 0 Hh ltac:(lia)) as Hpos.
  unfold ParseInt. rewrite Hplus, Hminus. cbv zeta.
  change (Z.shiftl 1 (64 - 1)) with 9223372036854775808.
  unfold maxInt64 in *. change (2 ^ 63) with 9223372036854775808 in *.
  cbn [negb andb].
  destruct (ParseUint_cases c ds) as [(_ & Hv & ->) | [(_ & Hv & ->) | (Hh' & _)]];
    [| | congruence]; unfold maxVal64 in *.
  - split; intros H.
    + destruct (Z.leb_spec 9223372036854775808 (hexValueFrom 0 (String c ds))); [lia|].
      rewrite wrap64s_small; [reflexivity|].
      unfold minInt64, maxInt64. change (2 ^ 63) with 9223372036854775808. lia.
    + destruct (Z.leb_spec 9223372036854775808 (hexValueFrom 0 (String c ds))); [|lia].
      reflexivity.
  - split; intros H; [lia | reflexivity].
Qed.

(** X3: on a timestamp that leaves a non-empty string of hex digits after
    the leading [0] and [x] bytes, [time] returns the time that many seconds
    after the Unix epoch when the number is at most the largest [int64], and
    the range error of [ParseInt] when it is larger. *)
Theorem Block_time_on_hex (b : Block) :
  TrimLeft (Timestamp b) "0x" <> EmptyString ->
  allHex (TrimLeft (Timestamp b) "0x") = true ->
  (hexValueFrom 0 (TrimLeft (Timestamp b) "0x") <= maxInt64 ->
   Block_time b = Ok (time_Unix (hexValueFrom 0 (TrimLeft (Timestamp b) "0x")))) /\
  (maxInt64 < hexValueFrom 0 (TrimLeft (Timestamp b) "0x") ->
   Block_time b
   = Err (ErrBlockTimestamp (rangeError "ParseInt" (TrimLeft (Timestamp b) "0x")))).
Proof.
  unfold Block_time. cbv zeta.
  destruct (TrimLeft (Timestamp b) "0x") as [|c ds]; [intros H; contradiction|].
  intros _ Hh. destruct (ParseInt_hex c ds Hh) as [Hfit Hbig].
  split; intros H.
  - rewrite (Hfit H). reflexivity.
  - rewrite (Hbig H). reflexivity.
Qed.

Lemma Block_time_on_hex_witness :
  Block_time (mkBlock "0x6553f100" "0x10") = Ok (time_Unix 1700000000) /\
  Block_time (mkBlock "0x8000000000000000" "0x10")
  = Err (ErrBlockTimestamp (rangeError "ParseInt" "8000000000000000")).
Proof.
  split.
  - apply (proj1 (Block_time_on_hex (mkBlock "0x6553f100" "0x10")
                    ltac:(discriminate) eq_refl)).
    vm_compute. discriminate.
  - apply (proj2 (Block_time_on_hex (mkBlock "0x8000000000000000" "0x10")
                    ltac:(discriminate) eq_refl)).
    vm_compute. reflexivity.
Defined.

Lemma time_Unix_far_future (unixSec : Z) :
  maxInt64 - unixToInternal < unixSec <= maxInt64 ->
  sec (time_Unix unixSec) = unixSec + unixToInternal - 2 ^ 64 /\
  nsec (time_Unix unixSec) = 0.
Proof.
  unfold time_Unix, wrap64s, maxInt64. cbn [sec nsec].
  change unixToInternal with 62135596800.
  change (2 ^ 63) with 9223372036854775808. change (2 ^ 64) with 18446744073709551616.
  intros H. split; [|reflexivity].
  replace (unixSec + 62135596800 + 9223372036854775808)
    with (unixSec + 62135596800 + 9223372036854775808 - 18446744073709551616
          + 1 * 18446744073709551616) by lia.
  rewrite Z_mod_plus_full, Z.mod_small by lia. lia.
Qed.

(** X4: a block stamped within [unixToInternal] seconds of the largest
    [int64] wraps around in [time.Unix] to a time close to the smallest one,
    so [checkAge], read at any clock not before the Unix epoch, reports it
    too old, with the largest duration cut to whole seconds as its age. *)
Theorem checkAge_far_future_is_too_old (b : Block) (unixSec : Z) (w : World) (p : Proc) :
  Block_time b = Ok (time_Unix unixSec) ->
  maxInt64 - unixToInternal < unixSec <= maxInt64 ->
  Time_ok (clock w (ticks p)) ->
  unixToInternal <= sec (clock w (ticks p)) ->
  fst (Block_checkAge b w p) = Err (ErrBlockTooOld 9223372036000000000).
Proof.
  intros Ht Hfar [_ Hns] Hnow.
  rewrite (Block_checkAge_run b _ w p Ht). cbn [fst].
  destruct (time_Unix_far_future unixSec Hfar) as [Hsec Hnsec].
  assert (Hdiff : maxDuration < instant (clock w (ticks p)) - instant (time_Unix unixSec)).
  { unfold instant. rewrite Hsec, Hnsec.
    unfold maxDuration, maxInt64 in *. change unixToInternal with 62135596800 in *.
    change (2 ^ 63) with 9223372036854775808 in *.
    change (2 ^ 64) with 18446744073709551616. lia. }
  assert (Hold : 300 * Second < instant (clock w (ticks p)) - instant (time_Unix unixSec)).
  { unfold maxDuration, maxInt64, Second, Nanosecond in *.
    change (2 ^ 63) with 9223372036854775808 in *. lia. }
  rewrite (time_Sub_old _ _ Hold), Z.min_r by lia.
  reflexivity.
Qed.

Lemma checkAge_far_future_is_too_old_witness :
  fst (Block_checkAge (mkBlock "0x7fffffffffffffff" "0x10") scenarioFresh freshProc)
  = Err (ErrBlockTooOld 9223372036000000000).
Proof.
  apply (checkAge_far_future_is_too_old (mkBlock "0x7fffffffffffffff" "0x10")
           9223372036854775807 scenarioFresh freshProc eq_refl).
  - vm_compute. split; [reflexivity | discriminate].
  - vm_compute. repeat split; discriminate.
  - vm_compute. discriminate.
Defined.

(** ** What a cycle of [isReady] does and leaves *)

Lemma checkSyncLag_error syncInfo tol w p e :
  fst (checkSyncLag syncInfo tol w p) = Err e ->
  exists si, syncInfo = Some si /\ tol < distance si /\ e = ErrSyncLag (distance si) tol.
Proof.
  unfold checkSyncLag. destruct syncInfo as [si|]; [|discriminate].
  cbv zeta. destruct (Z.ltb_spec tol (distance si)) as [Hlt | Hge]; [|discriminate].
  intros He. injection He as <-. eauto.
Qed.





(** X7: raising the tolerance never changes a cycle that did not fail with
    the sync-lag error: with any larger tolerance [isReady] returns the same
    result and leaves the same process. *)
Theorem isReady_tolerance_monotone addr token timeout tol tol' w p r pf :
  tol <= tol' ->
  isReady addr token timeout tol w p = (r, pf) ->
  (forall dist t, r <> Err (ErrSyncLag dist t)) ->
  isReady addr token timeout tol' w p = (r, pf).
Proof.
  intros Hle H Hnolag. rewrite isReady_run in H |- *.
  destruct (getSyncing _ _ _ w p) as [[syncInfo|e] p1]; [|exact H].
  destruct (fst (checkSyncLag syncInfo tol w p1)) as [[]|e] eqn:Hlag.
  - assert (Hlag' : fst (checkSyncLag syncInfo tol' w p1) = Ok tt).
    { unfold checkSyncLag in *. destruct syncInfo as [si|]; [|reflexivity].
      cbv zeta in *.
      destruct (Z.ltb_spec tol (distance si)) as [Hlt | Hge]; [discriminate Hlag|].
      destruct (Z.ltb_spec tol' (distance si)) as [Hlt' | Hge']; [lia | reflexivity]. }
    rewrite Hlag'. exact H.
  - destruct (checkSyncLag_error _ _ _ _ _ Hlag) as (si & _ & _ & ->).
    injection H as <- _. exfalso. eapply Hnolag. reflexivity.
Qed.

Lemma isReady_tolerance_monotone_witness :
  isReady nodeAddr noToken 5 50
    (scriptedWorld [Responds 200 (Some scenarioA);
                    Responds 200 (Some (latestBlock "0x5a" "0x6553f100"))]
                   [after 1 0; after 1 5; after 1 9]) freshProc
  = (Ok tt,
     mkProc (mkBlockTrack (Some 90) (after 1 0) (60 * Second))
            [buildRequest nodeAddr noToken 5 payload_eth_getBlockByNumber;
             buildRequest nodeAddr noToken 5 payload_eth_syncing] 3).
Proof.
  apply (isReady_tolerance_monotone nodeAddr noToken 5 10 50).
  - lia.
  - vm_compute. reflexivity.
  - discriminate.
Defined.



(** ** Responses of an unexpected shape *)

Lemma decodeMembers_skip (A : Type) (setField : string -> json -> A -> result JsonError A)
  (name : string) :
  (forall k v cur, keyIs name k = false -> setField k v cur = Ok cur) ->
  forall ms cur, hasMember name ms = false -> decodeMembers setField ms cur = Ok cur.
Proof.
  intros Hskip. induction ms as [|[k v] ms IH]; intros cur Hno; cbn [decodeMembers].
  - reflexivity.
  - unfold hasMember in Hno. cbn [existsb fst] in Hno.
    apply orb_false_elim in Hno as [Hk Hms].
    rewrite (Hskip k v cur Hk). apply IH. exact Hms.
Qed.

Lemma Unmarshal_without_result (ms : list (string * json)) :
  hasMember "result" ms = false ->
  UnmarshalSync (Json (JObject ms))
  = Ok (mkJsonResultSync (mkSyncInfo EmptyString EmptyString)) /\
  UnmarshalBlock (Json (JObject ms))
  = Ok (mkJsonResultBlock (mkBlock EmptyString EmptyString)).
Proof.
  intros Hno. unfold UnmarshalSync, UnmarshalBlock, Unmarshal. cbn [decodeStruct]. split.
  - apply (decodeMembers_skip _ JsonResultSync_setField "result"); [|exact Hno].
    intros k v cur Hk. unfold JsonResultSync_setField. rewrite Hk. reflexivity.
  - apply (decodeMembers_skip _ JsonResultBlock_setField "result"); [|exact Hno].
    intros k v cur Hk. unfold JsonResultBlock_setField. rewrite Hk. reflexivity.
Qed.

(** X9: a response that is a JSON object without a [result] member, as a
    JSON-RPC error response is, is no error to the decoder.  As the answer
    to the sync request it counts as a sync report with empty fields, whose
    distance is 0, and [isReady] goes on to the latest block; as the answer
    to the latest-block request it is a block with empty fields, and
    [isReady] fails with the syntax error of [ParseUint] on the empty
    number. *)
Theorem isReady_response_without_result addr token timeout tol w p ms :
  hasMember "result" ms = false ->
  (forall p1,
     request addr token timeout payload_eth_syncing w p = (Ok (Json (JObject ms)), p1) ->
     getSyncing addr token timeout w p
     = (Ok (Some (mkSyncInfo EmptyString EmptyString)), p1) /\
     (0 <= tol ->
      isReady addr token timeout tol w p = checkLatestBlock addr token timeout w p1)) /\
  (forall syncInfo p1 p2,
     getSyncing addr token timeout w p = (Ok syncInfo, p1) ->
     fst (checkSyncLag syncInfo tol w p1) = Ok tt ->
     request addr token timeout payload_eth_getBlockByNumber w p1
     = (Ok (Json (JObject ms)), p2) ->
     isReady addr token timeout tol w p
     = (Err (ErrBlockNumber (syntaxError "ParseUint" EmptyString)), p2)).
Proof.
  intros Hno. destruct (Unmarshal_without_result ms Hno) as [Hsync Hblock]. split.
  - intros p1 Hreq.
    assert (Hget : getSyncing addr token timeout w p
                   = (Ok (Some (mkSyncInfo EmptyString EmptyString)), p1)).
    { rewrite getSyncing_run, Hreq, Hsync. reflexivity. }
    split; [exact Hget|]. intros Htol.
    rewrite isReady_run, Hget. unfold checkSyncLag.
    change (distance (mkSyncInfo EmptyString EmptyString)) with 0.
    destruct (Z.ltb_spec tol 0); [lia | reflexivity].
  - intros syncInfo p1 p2 Hs Hlag Hreq.
    rewrite isReady_run, Hs, Hlag.
    apply checkLatestBlock_number_error with (b := mkBlock EmptyString EmptyString).
    + rewrite getLatestBlock_run, Hreq, Hblock. reflexivity.
    + reflexivity.
Qed.

Lemma isReady_response_without_result_witness :
  fst (isReady nodeAddr noToken 5 0
         (scriptedWorld
            [Responds 200 (Some (Json (JObject [("jsonrpc", JString "2.0");
                                                ("error", JString "method not found")])));
             Responds 200 (Some (latestBlock "0x10" "0x6553f100"))]
            [after 0 0; after 0 5; after 0 9]) freshProc)
  = Ok tt
  /\ fst (isReady nodeAddr noToken 5 0
            (scriptedWorld
               [Responds 200 (Some (rpcResult (JBool false)));
                Responds 200 (Some (Json (JObject [("jsonrpc", JString "2.0");
                                                   ("error", JString "no block")])))]
               []) freshProc)
     = Err (ErrBlockNumber (syntaxError "ParseUint" EmptyString)).
Proof.
  split.
  - destruct (isReady_response_without_result nodeAddr noToken 5 0
                (scriptedWorld
                   [Responds 200 (Some (Json (JObject [("jsonrpc", JString "2.0");
                                                ("error", JString "method not found")])));
                    Responds 200 (Some (latestBlock "0x10" "0x6553f100"))]
                   [after 0 0; after 0 5; after 0 9]) freshProc
                [("jsonrpc", JString "2.0"); ("error", JString "method not found")]
                eq_refl) as [Hsync _].
    destruct (Hsync _ eq_refl) as [_ Hgo]. rewrite Hgo by lia.
    vm_compute. reflexivity.
  - destruct (isReady_response_without_result nodeAddr noToken 5 0
                (scriptedWorld
                   [Responds 200 (Some (rpcResult (JBool false)));
                    Responds 200 (Some (Json (JObject [("jsonrpc", JString "2.0");
                                                   ("error", JString "no block")])))]
                   []) freshProc
                [("jsonrpc", JString "2.0"); ("error", JString "no block")]
                eq_refl) as [_ Hblock].
    erewrite Hblock; [reflexivity | vm_compute; reflexivity | reflexivity
                     | vm_compute; reflexivity].
Defined.

(** X10: what [getSyncing] returns for a body that fits neither decoder.  A
    body that is not JSON gives the syntax error; a result that is a number,
    a string or an array gives the type error of the boolean decoder, named
    after the kind of the result; and a sync object whose [currentBlock] is
    not a string gives the type error of the boolean decoder for an object,
    not the one for the field. *)
Theorem getSyncing_decode_errors addr token timeout w p body p1 :
  request addr token timeout payload_eth_syncing w p = (Ok body, p1) ->
  (body = NotJson ->
   getSyncing addr token timeout w p = (Err (ErrUnmarshal SyntaxError), p1)) /\
  (forall v, body = rpcResult v -> isScalarOrArray v = true ->
   getSyncing addr token timeout w p
   = (Err (ErrUnmarshal (UnmarshalTypeError (jsonValueName v))), p1)) /\
  (forall v ms, body = rpcResult (JObject (("currentBlock", v) :: ms)) ->
   notNullOrString v = true ->
   getSyncing addr token timeout w p
   = (Err (ErrUnmarshal (UnmarshalTypeError "object")), p1)).
Proof.
  intros Hreq. rewrite getSyncing_run, Hreq. split; [| split].
  - intros ->. reflexivity.
  - intros v -> Hv. destruct v; try discriminate Hv; reflexivity.
  - intros v ms -> Hv. destruct v; try discriminate Hv; reflexivity.
Qed.

Lemma getSyncing_decode_errors_witness :
  fst (getSyncing nodeAddr noToken 5
         (scriptedWorld [Responds 200 (Some NotJson)] []) freshProc)
  = Err (ErrUnmarshal SyntaxError)
  /\ fst (getSyncing nodeAddr noToken 5
            (scriptedWorld [Responds 200 (Some (rpcResult (JString "0x0")))] []) freshProc)
     = Err (ErrUnmarshal (UnmarshalTypeError "string"))
  /\ fst (getSyncing nodeAddr noToken 5
            (scriptedWorld
               [Responds 200 (Some (rpcResult
                  (JObject [("currentBlock", JNumber "90");
                            ("highestBlock", JNumber "100")])))] []) freshProc)
     = Err (ErrUnmarshal (UnmarshalTypeError "object")).
Proof.
  split; [| split].
  - destruct (getSyncing_decode_errors nodeAddr noToken 5
                (scriptedWorld [Responds 200 (Some NotJson)] []) freshProc _ _ eq_refl)
      as (H & _). rewrite (H eq_refl). reflexivity.
  - destruct (getSyncing_decode_errors nodeAddr noToken 5
                (scriptedWorld [Responds 200 (Some (rpcResult (JString "0x0")))] [])
                freshProc _ _ eq_refl) as (_ & H & _).
    rewrite (H (JString "0x0") eq_refl eq_refl). reflexivity.
  - destruct (getSyncing_decode_errors nodeAddr noToken 5
                (scriptedWorld
                   [Responds 200 (Some (rpcResult
                      (JObject [("currentBlock", JNumber "90");
                                ("highestBlock", JNumber "100")])))] [])
                freshProc _ _ eq_refl) as (_ & _ & H).
    rewrite (H (JNumber "90") [("highestBlock", JNumber "100")] eq_refl eq_refl).
    reflexivity.
Defined.

(** ** The poll loop and the start-up *)





(** Whether a host followed by a colon starts with [http] is decided by the
    host. *)
Lemma HasPrefix_host_colon (host rest : string) :
  HasPrefix (host ++ ":" ++ rest) "http" = HasPrefix host "http".
Proof.
  destruct host as [|c1 [|c2 [|c3 [|c4 host]]]]; cbn;
    repeat (match goal with
            | |- context [Ascii.eqb ?a ?b] => destruct (Ascii.eqb a b); cbn
            end);
    reflexivity.
Qed.

(** X12: the address the execution updater polls.  For the chain [avax] it
    is [http://host:port/ext/bc/C/rpc]; for [execution] it is
    [http://host:port] unless the host itself starts with [http], in which
    case the address is [host:port] with no scheme added.  The port is the
    option when it is not 0 and the default of the chain otherwise, so it is
    never 0; and every address handed to [update] starts with [http], with
    the timeout and the tolerance of the options and no secret when no JWT
    path is given. *)
Theorem main_start_address loadJwt opts :
  (Chain opts = "avax" ->
   exists args,
     main_start loadJwt opts
     = StartedExecution
         ("http://" ++ Addr opts ++ ":" ++ formatInt (main_nodePort opts) ++ "/ext/bc/C/rpc")
         args /\
     updAddr args
     = ("http://" ++ Addr opts ++ ":" ++ formatInt (main_nodePort opts)
        ++ "/ext/bc/C/rpc")%string) /\
  (Chain opts = "execution" ->
   exists args,
     main_start loadJwt opts
     = StartedExecution (Addr opts ++ ":" ++ formatInt (main_nodePort opts)) args /\
     updAddr args
     = (if HasPrefix (Addr opts) "http"
        then Addr opts ++ ":" ++ formatInt (main_nodePort opts)
        else "http://" ++ Addr opts ++ ":" ++ formatInt (main_nodePort opts))%string) /\
  (forall nodeAddr args,
     main_start loadJwt opts = StartedExecution nodeAddr args ->
     HasPrefix (updAddr args) "http" = true /\
     updTimeout args = Timeout opts /\
     updSyncTolerance args = ExecutionSyncTolerance opts /\
     (ExecutionJwt opts = EmptyString -> updSecret args = None)) /\
  main_nodePort opts <> 0 /\
  (Port opts <> 0 -> main_nodePort opts = Port opts).
Proof.
  split; [| split; [| split; [| split]]].
  - intros Hc. unfold main_start. rewrite Hc. cbn [String.eqb Ascii.eqb Bool.eqb].
    eexists. split; reflexivity.
  - intros Hc. unfold main_start. rewrite Hc. cbn [String.eqb Ascii.eqb Bool.eqb].
    eexists. split; [reflexivity|].
    unfold StartUpdater. cbn [updAddr]. rewrite HasPrefix_host_colon.
    destruct (HasPrefix (Addr opts) "http"); reflexivity.
  - intros nodeAddr0 args H.
    assert (Hstart : forall addr,
              let a := StartUpdater loadJwt addr (Timeout opts) (ExecutionJwt opts)
                         (ExecutionSyncTolerance opts) in
              HasPrefix (updAddr a) "http" = true /\
              updTimeout a = Timeout opts /\
              updSyncTolerance a = ExecutionSyncTolerance opts /\
              (ExecutionJwt opts = EmptyString -> updSecret a = None)).
    { intros addr. unfold StartUpdater. cbn [updAddr updTimeout updSyncTolerance updSecret].
      repeat split.
      - destruct (HasPrefix addr "http") eqn:Hp; [exact Hp | reflexivity].
      - intros ->. reflexivity. }
    unfold main_start in H.
    destruct (String.eqb (Chain opts) "avax").
    + injection H as _ <-. apply Hstart.
    + destruct (String.eqb (Chain opts) "execution").
      * injection H as _ <-. apply Hstart.
      * destruct (String.eqb (Chain opts) "beacon"); discriminate H.
  - unfold main_nodePort. destruct (Z.eqb_spec (Port opts) 0) as [_ | Hp]; [|exact Hp].
    destruct (String.eqb (Chain opts) "beacon"); [discriminate|].
    destruct (String.eqb (Chain opts) "avax"); discriminate.
  - intros Hp. unfold main_nodePort.
    destruct (Z.eqb_spec (Port opts) 0); [contradiction | reflexivity].
Qed.

Lemma main_start_address_witness :
  (exists args,
     main_start (fun _ => None) (defaultOptions "avax")
     = StartedExecution "http://localhost:9650/ext/bc/C/rpc" args /\
     updAddr args = "http://localhost:9650/ext/bc/C/rpc")
  /\ (exists args,
        main_start (fun _ => None) (defaultOptions "execution")
        = StartedExecution "localhost:8545" args /\
        updAddr args = "http://localhost:8545")
  /\ (exists args,
        main_start (fun _ => None)
          (mkOptions "execution" 8551 "httpd.internal" 5 EmptyString 0 EmptyString)
        = StartedExecution "httpd.internal:8551" args /\
        updAddr args = "httpd.internal:8551")
  /\ main_nodePort (mkOptions "beacon" 5052 "localhost" 5 EmptyString 0 EmptyString) = 5052.
Proof.
  split; [| split; [| split]].
  - destruct (proj1 (main_start_address (fun _ => None) (defaultOptions "avax")) eq_refl)
      as (args & H1 & H2).
    exists args. split; [exact H1 | exact H2].
  - destruct (proj1 (proj2 (main_start_address (fun _ => None) (defaultOptions "execution")))
                eq_refl) as (args & H1 & H2).
    exists args. split; [exact H1 | exact H2].
  - destruct (proj1 (proj2 (main_start_address (fun _ => None)
                (mkOptions "execution" 8551 "httpd.internal" 5 EmptyString 0 EmptyString)))
                eq_refl) as (args & H1 & H2).
    exists args. split; [exact H1 | exact H2].
  - apply (proj2 (proj2 (proj2 (proj2 (main_start_address (fun _ => None)
             (mkOptions "beacon" 5052 "localhost" 5 EmptyString 0 EmptyString)))))).
    discriminate.
Defined.
